(** * Paper-toss game: physics, outcome resolution and phase machine

    A shallow embedding of [src/types.ts] and of the simulation core of
    [src/components/GameCanvas.tsx]: the pointer handlers, [resetBall],
    the [render] callback of the main effect with its physics step, the
    bin and miss checks and the perspective projection, the deferred
    [setTimeout] resets and the effect clean-up.

    Modelling conventions.
    - A JavaScript [number] holding a coordinate, a velocity or a wind
      speed is an exact rational ([Q]); the decimal constants of the source
      are written as they are ([0.98] is the rational 98/100).  Rounding,
      infinities and NaN of binary64 arithmetic are outside the model.
    - Canvas and window sizes are integers, as in the DOM ([Z]).
    - The component is one record [Component]: its two [useState] cells,
      the [useRef] physics object, the canvas size, the pending timers,
      whether a next animation frame is requested, and the list of values
      handed to the [onScoreUpdate] prop.
    - A handler or one iteration of [render] is one atomic transition.
      [render] reads the [gameState] it closed over, so every branch of one
      iteration tests the phase the iteration started with, while
      [setGameState] writes the cell (the last write of an iteration
      wins). *)

From Stdlib Require Import QArith Qabs Qminmax Qround Qpower Lqa ZArith NArith
  Lia Bool List Ascii String.
Import ListNotations.

Open Scope Q_scope.

(** ** Comparison operators of the source on numbers *)

Module Num.

(** [a < b] *)
Definition ltb (a b : Q) : bool := negb (Qle_bool b a).
(** [a <= b] *)
Definition leb (a b : Q) : bool := Qle_bool a b.
(** [a > b] *)
Definition gtb (a b : Q) : bool := ltb b a.
(** [a >= b] *)
Definition geb (a b : Q) : bool := leb b a.

End Num.

(** ** [src/types.ts] *)

Inductive GameState : Set := IDLE | DRAGGING | THROWN | LANDED | MISSED.

Record Point3D : Set := mkPoint3D { x : Q; y : Q; z : Q }.

Record Wind : Set := mkWind { speed : Q; label : string }.

(** ** Game constants *)

Definition GRAVITY : Q := 0.5.
Definition AIR_RESISTANCE : Q := 0.98.
Definition WIND_FACTOR : Q := 0.05.
Definition THROW_SCALE : Q := 0.15.
Definition PERSPECTIVE : Q := 800.
Definition GROUND_Y : Q := 600.
Definition BIN_Z : Q := 600.
Definition BIN_RADIUS : Q := 60.
Definition BALL_RADIUS : Q := 15.

(** ** The component's state *)

(** A pointer position, as stored in [dragStart] and [dragCurrent]. *)
Record DragPoint : Set := mkDragPoint { clientX : Q; clientY : Q }.

(** The object behind the [physicsState] ref. *)
Record PhysicsState : Set := mkPhysicsState {
  ball : Point3D;
  velocity : Point3D;
  dragStart : DragPoint;
  dragCurrent : DragPoint;
  lastTime : Q
}.

Record Canvas : Set := mkCanvas { width : Z; height : Z }.

(** The one callback the component ever defers:
    [() => resetBall(canvas.width, canvas.height)]. *)
Inductive Callback : Set := ResetBall.

(** A pending [setTimeout]: the callback and its delay in milliseconds. *)
Record Timeout : Set := mkTimeout { callback : Callback; delay : Z }.

Record Component : Set := mkComponent {
  gameState : GameState;
  score : Z;
  physicsState : PhysicsState;
  canvas : Canvas;
  (** pending timers, oldest first *)
  timeouts : list Timeout;
  (** [requestAnimationFrame(render)] is pending *)
  animationFrame : bool;
  (** the arguments of the calls of [onScoreUpdate], newest first *)
  reported : list Z
}.

Definition origin : Point3D := {| x := 0; y := 0; z := 0 |}.

(** State after [useState] and [useRef] initialisation; an HTML canvas
    starts 300 by 150. *)
Definition initial : Component :=
  {| gameState := IDLE;
     score := 0%Z;
     physicsState :=
       {| ball := origin; velocity := origin;
          dragStart := {| clientX := 0; clientY := 0 |};
          dragCurrent := {| clientX := 0; clientY := 0 |};
          lastTime := 0 |};
     canvas := {| width := 300; height := 150 |};
     timeouts := [];
     animationFrame := false;
     reported := [] |}.

(** *** Writes to the state cells *)

Definition setGameState (g : GameState) (c : Component) : Component :=
  {| gameState := g; score := score c; physicsState := physicsState c;
     canvas := canvas c; timeouts := timeouts c;
     animationFrame := animationFrame c; reported := reported c |}.

Definition setPhysics (p : PhysicsState) (c : Component) : Component :=
  {| gameState := gameState c; score := score c; physicsState := p;
     canvas := canvas c; timeouts := timeouts c;
     animationFrame := animationFrame c; reported := reported c |}.

Definition setCanvas (cv : Canvas) (c : Component) : Component :=
  {| gameState := gameState c; score := score c;
     physicsState := physicsState c; canvas := cv; timeouts := timeouts c;
     animationFrame := animationFrame c; reported := reported c |}.

Definition setBall (b : Point3D) (p : PhysicsState) : PhysicsState :=
  {| ball := b; velocity := velocity p; dragStart := dragStart p;
     dragCurrent := dragCurrent p; lastTime := lastTime p |}.

Definition setVelocity (v : Point3D) (p : PhysicsState) : PhysicsState :=
  {| ball := ball p; velocity := v; dragStart := dragStart p;
     dragCurrent := dragCurrent p; lastTime := lastTime p |}.

Definition setDragStart (d : DragPoint) (p : PhysicsState) : PhysicsState :=
  {| ball := ball p; velocity := velocity p; dragStart := d;
     dragCurrent := dragCurrent p; lastTime := lastTime p |}.

Definition setDragCurrent (d : DragPoint) (p : PhysicsState) : PhysicsState :=
  {| ball := ball p; velocity := velocity p; dragStart := dragStart p;
     dragCurrent := d; lastTime := lastTime p |}.

(** [setScore(s => { const newScore = s + 1; onScoreUpdate(newScore);
    return newScore; })] *)
Definition incrementScore (c : Component) : Component :=
  let newScore := (score c + 1)%Z in
  {| gameState := gameState c; score := newScore;
     physicsState := physicsState c; canvas := canvas c;
     timeouts := timeouts c; animationFrame := animationFrame c;
     reported := newScore :: reported c |}.

(** [setTimeout(cb, ms)] *)
Definition setTimeout (cb : Callback) (ms : Z) (c : Component) : Component :=
  {| gameState := gameState c; score := score c;
     physicsState := physicsState c; canvas := canvas c;
     timeouts := timeouts c ++ [ {| callback := cb; delay := ms |} ];
     animationFrame := animationFrame c; reported := reported c |}.

Definition setAnimationFrame (b : bool) (c : Component) : Component :=
  {| gameState := gameState c; score := score c;
     physicsState := physicsState c; canvas := canvas c;
     timeouts := timeouts c; animationFrame := b; reported := reported c |}.

Definition setTimeouts (l : list Timeout) (c : Component) : Component :=
  {| gameState := gameState c; score := score c;
     physicsState := physicsState c; canvas := canvas c;
     timeouts := l; animationFrame := animationFrame c;
     reported := reported c |}.

(** ** [resetBall] and the pointer handlers *)

Definition resetBall (w h : Z) (c : Component) : Component :=
  let p := physicsState c in
  let p := setBall {| x := 0; y := inject_Z h / 2 - 100; z := 0 |} p in
  let p := setVelocity {| x := 0; y := 0; z := 0 |} p in
  setGameState IDLE (setPhysics p c).

Definition handlePointerDown (ex ey : Q) (c : Component) : Component :=
  match gameState c with
  | IDLE =>
      let c := setGameState DRAGGING c in
      let p := setDragStart {| clientX := ex; clientY := ey |} (physicsState c) in
      let p := setDragCurrent {| clientX := ex; clientY := ey |} p in
      setPhysics p c
  | _ => c
  end.

Definition handlePointerMove (ex ey : Q) (c : Component) : Component :=
  match gameState c with
  | DRAGGING =>
      setPhysics
        (setDragCurrent {| clientX := ex; clientY := ey |} (physicsState c)) c
  | _ => c
  end.

(** The gesture vector read by [handlePointerUp]. *)
Definition dragDx (p : PhysicsState) : Q :=
  clientX (dragCurrent p) - clientX (dragStart p).
Definition dragDy (p : PhysicsState) : Q :=
  clientY (dragCurrent p) - clientY (dragStart p).

(** [handlePointerUp] ignores the coordinates of its event; it is also the
    [onPointerLeave] handler. *)
Definition handlePointerUp (c : Component) : Component :=
  match gameState c with
  | DRAGGING =>
      let dx := dragDx (physicsState c) in
      let dy := dragDy (physicsState c) in
      let throwPowerY := Qmin dy 0 in
      if Num.ltb (Qabs throwPowerY) 50 then setGameState IDLE c
      else
        let vz := Qabs throwPowerY * THROW_SCALE * 1.5 in
        let vy := throwPowerY * THROW_SCALE * 0.8 in
        let vx := dx * THROW_SCALE * 0.5 in
        let p := setVelocity {| x := vx; y := vy; z := vz |} (physicsState c) in
        setGameState THROWN (setPhysics p c)
  | _ => c
  end.

(** ** One iteration of [render] *)

(** Result of [project]: screen position and perspective scale. *)
Record Projected : Set := mkProjected { sx : Q; sy : Q; scale : Q }.

(** [project], with the [centerX] and [centerY] it closes over. *)
Definition project (centerX centerY : Q) (p : Point3D) : Projected :=
  let s := PERSPECTIVE / (PERSPECTIVE + z p) in
  {| sx := centerX + x p * s; sy := centerY + y p * s; scale := s |}.

(** What one iteration hands to the canvas. *)
Record Scene : Set := mkScene {
  projBin : Projected;
  scaledBinRadius : Q;
  (** the ball object that is drawn *)
  drawnBall : Point3D;
  projBall : Projected;
  scaledBallRadius : Q;
  dragLine : option (DragPoint * DragPoint)
}.

(** "Apply forces", "Air resistance", "Update Position". *)
Definition integrate (wind : Wind) (p : PhysicsState) : PhysicsState :=
  let v := velocity p in
  let b := ball p in
  let vy := y v + GRAVITY in
  let vx := x v + speed wind * WIND_FACTOR in
  let vx := vx * AIR_RESISTANCE in
  let vz := z v * AIR_RESISTANCE in
  let v := {| x := vx; y := vy; z := vz |} in
  let b := {| x := x b + x v; y := y b + y v; z := z b + z v |} in
  setBall b (setVelocity v p).

Definition floorY : Q := 300.
Definition binRimY : Q := 150.

(** "Determine if inside bin": the three nested tests. *)
Definition binCheck (c : Component) : Component :=
  let b := ball (physicsState c) in
  if Num.geb (z b) BIN_Z && Num.leb (z b) (BIN_Z + 50) then
    if Num.ltb (Qabs (y b - binRimY)) 50 then
      if Num.ltb (Qabs (x b)) BIN_RADIUS then
        setTimeout ResetBall 1000
          (incrementScore (setGameState LANDED c))
      else c
    else c
  else c.

(** "Miss condition (hit ground or went too far)". *)
Definition missCheck (c : Component) : Component :=
  let b := ball (physicsState c) in
  if Num.gtb (y b) (floorY + 200) || Num.gtb (z b) (BIN_Z + 200) then
    setTimeout ResetBall 1000 (setGameState MISSED c)
  else c.

(** The resize prologue. [phase] is the [gameState] of the closure. *)
Definition resize (phase : GameState) (innerWidth innerHeight : Z)
    (c : Component) : Component :=
  if negb (width (canvas c) =? innerWidth)%Z
     || negb (height (canvas c) =? innerHeight)%Z
  then
    let c := setCanvas {| width := innerWidth; height := innerHeight |} c in
    match phase with
    | IDLE => resetBall (width (canvas c)) (height (canvas c)) c
    | _ => c
    end
  else c.

(** The "PHYSICS" block. *)
Definition physics (phase : GameState) (wind : Wind) (c : Component)
    : Component :=
  match phase with
  | THROWN =>
      let c := setPhysics (integrate wind (physicsState c)) c in
      let c := binCheck c in
      missCheck c
  | IDLE | DRAGGING =>
      setPhysics (setBall {| x := 0; y := 300; z := 0 |} (physicsState c)) c
  | LANDED | MISSED => c
  end.

(** The "RENDER" block, reduced to the geometry it computes. *)
Definition draw (phase : GameState) (c : Component) : Scene :=
  let centerX := inject_Z (width (canvas c)) / 2 in
  let centerY := inject_Z (height (canvas c)) / 2 + 100 in
  let binPos := {| x := 0; y := 150; z := BIN_Z |} in
  let pBin := project centerX centerY binPos in
  let binScale := scale pBin in
  let b := ball (physicsState c) in
  let pBall := project centerX centerY b in
  {| projBin := pBin;
     scaledBinRadius := BIN_RADIUS * binScale;
     drawnBall := b;
     projBall := pBall;
     scaledBallRadius := BALL_RADIUS * scale pBall;
     dragLine :=
       match phase with
       | DRAGGING =>
           Some (dragStart (physicsState c), dragCurrent (physicsState c))
       | _ => None
       end |}.

Definition render (wind : Wind) (innerWidth innerHeight : Z) (c : Component)
    : Component * Scene :=
  let phase := gameState c in
  let c := resize phase innerWidth innerHeight c in
  let c := physics phase wind c in
  let scene := draw phase c in
  (setAnimationFrame true c, scene).

(** State and scene of one iteration. *)
Definition frame (wind : Wind) (iw ih : Z) (c : Component) : Component :=
  fst (render wind iw ih c).
Definition scene (wind : Wind) (iw ih : Z) (c : Component) : Scene :=
  snd (render wind iw ih c).

(** ** Timers and teardown *)

(** The oldest pending timer fires and runs its callback. *)
Definition fireTimeout (c : Component) : Component :=
  match timeouts c with
  | [] => c
  | t :: rest =>
      let c := setTimeouts rest c in
      match callback t with
      | ResetBall => resetBall (width (canvas c)) (height (canvas c)) c
      end
  end.

(** The clean-up of the main effect:
    [return () => cancelAnimationFrame(animationFrameId)]. *)
Definition cleanup (c : Component) : Component :=
  setAnimationFrame false c.

(** ** The component in its environment *)

Inductive Event : Set :=
| PointerDown (ex ey : Q)
| PointerMove (ex ey : Q)
| PointerUp
| PointerLeave
| Frame (wind : Wind) (innerWidth innerHeight : Z)
| TimerFires
| Unmount.

(** A mounted component receives pointer events and iterations of
    [render]; an unmounted one neither.  A timer fires either way. *)
Record System : Set := mkSystem { component : Component; mounted : bool }.

Definition step (s : System) (e : Event) : System :=
  let c := component s in
  match e with
  | TimerFires => {| component := fireTimeout c; mounted := mounted s |}
  | Unmount =>
      if mounted s then {| component := cleanup c; mounted := false |}
      else s
  | _ =>
      if mounted s then
        {| component :=
             match e with
             | PointerDown ex ey => handlePointerDown ex ey c
             | PointerMove ex ey => handlePointerMove ex ey c
             | PointerUp | PointerLeave => handlePointerUp c
             | Frame wind iw ih => frame wind iw ih c
             | _ => c
             end;
           mounted := true |}
      else s
  end.

Definition run (s : System) (es : list Event) : System :=
  fold_left step es s.

Definition start : System := {| component := initial; mounted := true |}.

(** The states the mounted or discarded component can be in. *)
Definition reachable (s : System) : Prop := exists es, run start es = s.

(** ** The outcome tests as predicates on the ball *)

(** The conjunction the three nested tests of [binCheck] amount to. *)
Definition inBin (b : Point3D) : bool :=
  (Num.geb (z b) BIN_Z && Num.leb (z b) (BIN_Z + 50))
  && Num.ltb (Qabs (y b - binRimY)) 50
  && Num.ltb (Qabs (x b)) BIN_RADIUS.

(** The test of [missCheck]. *)
Definition isMiss (b : Point3D) : bool :=
  Num.gtb (y b) (floorY + 200) || Num.gtb (z b) (BIN_Z + 200).

(** The deferred reset every terminal outcome schedules. *)
Definition resetTimer : Timeout := {| callback := ResetBall; delay := 1000 |}.

(** The launch point at which [render] keeps a resting ball. *)
Definition launchPoint : Point3D := {| x := 0; y := 300; z := 0 |}.

(** ** Invariant of the reachable states *)

(** The ball never is behind the launch plane and never moves towards the
    camera; a ball at rest has no velocity; a reset is pending exactly in
    the two terminal phases. *)
Record Inv (c : Component) : Prop := mkInv {
  inv_ball : 0 <= z (ball (physicsState c));
  inv_velocity : 0 <= z (velocity (physicsState c));
  inv_thrown : gameState c = THROWN -> 0 < z (velocity (physicsState c));
  inv_rest :
    gameState c = IDLE \/ gameState c = DRAGGING ->
    velocity (physicsState c) = origin;
  inv_timeouts :
    timeouts c =
    match gameState c with
    | LANDED | MISSED => [resetTimer]
    | _ => []
    end
}.

(** ** Sample sessions *)

Definition calm : Wind := {| speed := 0; label := "Calm" |}.

(** Press at [(x0, y0)], move to [(x1, y1)], release. *)
Definition gesture (x0 y0 x1 y1 : Q) : list Event :=
  [PointerDown x0 y0; PointerMove x1 y1; PointerUp].

(** One iteration of [render] in an 800 by 600 window without wind. *)
Definition tick : Event := Frame calm 800 600.

Definition frames (n : nat) : list Event := repeat tick n.

(** The first iteration after mounting, a swipe of 110 units up the
    screen, and [n] iterations of flight. *)
Definition flight (n : nat) : System :=
  run start (tick :: gesture 100 500 100 390 ++ frames n).

(** A swipe of 500 units up the screen: the ball passes the far limit in
    the eighth iteration. *)
Definition overthrow : System :=
  run start (tick :: gesture 100 600 100 100 ++ frames 8).

(** A ball in flight just short of the bin, drifting forward. *)
Definition beforeBin : Component :=
  setGameState THROWN
    (setPhysics
       (setVelocity {| x := 0; y := 0; z := 20 |}
          (setBall {| x := 10; y := 140; z := 590 |} (physicsState initial)))
       initial).

(** A ball in flight that has dropped to the floor line. *)
Definition nearFloor : Component :=
  setGameState THROWN
    (setPhysics
       (setVelocity {| x := 0; y := 10; z := 5 |}
          (setBall {| x := 0; y := 495; z := 300 |} (physicsState initial)))
       initial).

(** ** Flights and phase changes *)

(** The inputs of one iteration of [render]: the wind and the window's
    inner width and height. *)
Definition Refresh : Set := (Wind * (Z * Z))%type.

Definition refresh (c : Component) (r : Refresh) : Component :=
  frame (fst r) (fst (snd r)) (snd (snd r)) c.

(** Iterations of [render] in a row, nothing else in between. *)
Definition refreshes (c : Component) (rs : list Refresh) : Component :=
  fold_left refresh rs c.

Definition isFrame (e : Event) : bool :=
  match e with Frame _ _ _ => true | _ => false end.

Definition isPointer (e : Event) : bool :=
  match e with
  | PointerDown _ _ | PointerMove _ _ | PointerUp | PointerLeave => true
  | _ => false
  end.

Definition GameState_eq_dec (g h : GameState) : {g = h} + {g <> h}.
Proof. decide equality. Defined.

(** The phases in which the ball is not in the player's hand. *)
Definition released (g : GameState) : bool :=
  match g with
  | THROWN | LANDED | MISSED => true
  | IDLE | DRAGGING => false
  end.

(** The phase changes of the component, by the event that causes them. *)
Inductive transition : Event -> GameState -> GameState -> Prop :=
| t_press ex ey : transition (PointerDown ex ey) IDLE DRAGGING
| t_cancel : transition PointerUp DRAGGING IDLE
| t_throw : transition PointerUp DRAGGING THROWN
| t_cancel_leave : transition PointerLeave DRAGGING IDLE
| t_throw_leave : transition PointerLeave DRAGGING THROWN
| t_land w iw ih : transition (Frame w iw ih) THROWN LANDED
| t_miss w iw ih : transition (Frame w iw ih) THROWN MISSED
| t_reset_landed : transition TimerFires LANDED IDLE
| t_reset_missed : transition TimerFires MISSED IDLE.

(** The pointer moves of a drag, as events. *)
Definition moves (ps : list DragPoint) : list Event :=
  map (fun p => PointerMove (clientX p) (clientY p)) ps.


(** The scores [n, n - 1, ..., 1]. *)
Definition countdown (n : nat) : list Z := map Z.of_nat (rev (seq 1 n)).

(** A number of iterations after which a flight from [c] is over. *)
Definition flightBound (c : Component) : nat :=
  let p := physicsState c in
  Z.to_nat
    (Qceiling (4 * Qabs (y (velocity p)) + 4 + Qabs (500 - y (ball p)))).

(** Where a resting ball is: on the axis of the room, at depth 0. *)
Definition atRest (c : Component) : Prop :=
  gameState c = IDLE \/ gameState c = DRAGGING ->
  x (ball (physicsState c)) = 0 /\ z (ball (physicsState c)) = 0.

(** ** [src/App.tsx]: the wind and the score display *)

(** [updateWind], with the value of [Math.random()] as argument. *)
Definition updateWind (random : Q) : Wind :=
  let speed := random * 10 - 5 in
  {| speed := speed;
     label :=
       if Num.ltb (Qabs speed) 1 then "Calm"
       else if Num.ltb (Qabs speed) 3 then "Breezy"
       else "Windy" |}.

(** The [score] cell of [App]: 0 at first, then the last value the canvas
    handed to [onScoreUpdate], which is [setScore]. *)
Definition appScore (c : Component) : Z := hd 0%Z (reported c).

(** ** JavaScript strings and promises *)

Module JS.

(** A string, as its UTF-16 code units. *)
Definition str : Set := list N.

(** A literal of the source (all of them are ASCII). *)
Definition lit (s : string) : str := map N_of_ascii (list_ascii_of_string s).

(** WhiteSpace and LineTerminator of ECMAScript, which [trim] removes:
    TAB, LF, VT, FF, CR, SP, NBSP, the other space separators of Unicode,
    LS, PS and the byte order mark. *)
Definition isWhiteSpace (u : N) : bool :=
  ((9 <=? u) && (u <=? 13) || (u =? 32) || (u =? 160) || (u =? 5760)
   || (8192 <=? u) && (u <=? 8202) || (u =? 8232) || (u =? 8233)
   || (u =? 8239) || (u =? 8287) || (u =? 12288) || (u =? 65279))%N.

Fixpoint trimStart (s : str) : str :=
  match s with
  | [] => []
  | u :: r => if isWhiteSpace u then trimStart r else s
  end.

Definition trimEnd (s : str) : str := rev (trimStart (rev s)).

Definition trim (s : str) : str := trimEnd (trimStart s).

(** A string in a condition: the empty string is false. *)
Definition truthy (s : str) : bool :=
  match s with [] => false | _ => true end.

(** A settled promise; a rejection carries the error. *)
Inductive Promise (A E : Type) : Type :=
| Resolved (a : A)
| Rejected (e : E).

Arguments Resolved {A E} a.
Arguments Rejected {A E} e.

End JS.

(** More of [src/types.ts]. *)

Inductive ImageSize : Set := Size1K | Size2K | Size4K.

Inductive Role : Set := user | model.

(** A [Date] is its time in milliseconds. *)
Record ChatMessage : Set := mkChatMessage {
  role : Role;
  text : JS.str;
  timestamp : Z
}.

(** ** [src/services/geminiService.ts] *)

Module GeminiService.

(** What the functions read of a response of the service. *)
Record InlineData : Set := mkInlineData { data : option JS.str }.

Record Part : Set := mkPart {
  partText : option JS.str;
  inlineData : option InlineData
}.

Record Content : Set := mkContent { parts : option (list Part) }.

Record Candidate : Set := mkCandidate { content : option Content }.

Record GenerateContentResponse : Set := mkResponse {
  candidates : option (list Candidate);
  (** the [text] accessor *)
  responseText : option JS.str
}.

(** [response.candidates?.[0]?.content?.parts || []] *)
Definition firstParts (response : GenerateContentResponse) : list Part :=
  match candidates response with
  | Some (cand :: _) =>
      match content cand with
      | Some ct =>
          match parts ct with
          | Some ps => ps
          | None => []
          end
      | None => []
      end
  | _ => []
  end.

(** A value in a template literal. *)
Definition interpolate (d : option JS.str) : JS.str :=
  match d with
  | Some t => t
  | None => JS.lit "undefined"
  end.

(** The loop over the parts. *)
Fixpoint firstImage (ps : list Part) : option JS.str :=
  match ps with
  | [] => None
  | part :: rest =>
      match inlineData part with
      | Some i => Some (JS.lit "data:image/png;base64," ++ interpolate (data i))
      | None => firstImage rest
      end
  end.

(** [generateGameBackground], as a function of how the call of the service
    settles: an error is logged and thrown again. *)
Definition generateGameBackground {E : Type}
    (response : JS.Promise GenerateContentResponse E)
    : JS.Promise (option JS.str) E :=
  match response with
  | JS.Resolved r => JS.Resolved (firstImage (firstParts r))
  | JS.Rejected e => JS.Rejected e
  end.

(** [result.text || "I'm speechless!"] *)
Definition orSpeechless (t : option JS.str) : JS.str :=
  match t with
  | Some u => if JS.truthy u then u else JS.lit "I'm speechless!"
  | None => JS.lit "I'm speechless!"
  end.

(** [sendChatMessage], as a function of how the call of the service
    settles: every error is caught. *)
Definition sendChatMessage {E : Type}
    (result : JS.Promise GenerateContentResponse E) : JS.str :=
  match result with
  | JS.Resolved r => orSpeechless (responseText r)
  | JS.Rejected _ => JS.lit "Oops, my brain circuit tripped. Try again?"
  end.

End GeminiService.

(** ** [src/components/BackgroundGenerator.tsx] *)

Module BackgroundGenerator.

Record State : Set := mkState {
  prompt : JS.str;
  size : ImageSize;
  isGenerating : bool;
  error : option JS.str;
  (** the arguments of the calls of [onBackgroundGenerated], newest
      first *)
  generated : list JS.str;
  (** the number of calls of [onClose] *)
  closed : nat
}.

Definition initial : State :=
  {| prompt := []; size := Size1K; isGenerating := false; error := None;
     generated := []; closed := 0 |}.

(** The call [generateGameBackground(prompt, size)]. *)
Record Request : Set := mkRequest {
  requestPrompt : JS.str;
  requestSize : ImageSize
}.

(** [handleGenerate] up to its [await]: the new state and the call made,
    if any. *)
Definition handleGenerate (st : State) : State * option Request :=
  if negb (JS.truthy (JS.trim (prompt st))) then (st, None)
  else
    ({| prompt := prompt st; size := size st; isGenerating := true;
        error := None; generated := generated st; closed := closed st |},
     Some {| requestPrompt := prompt st; requestSize := size st |}).

(** [handleGenerate] from its [await] on, with the settled promise. *)
Definition resume {E : Type} (url : JS.Promise (option JS.str) E)
    (st : State) : State :=
  let st :=
    match url with
    | JS.Resolved (Some u) =>
        if JS.truthy u then
          {| prompt := prompt st; size := size st;
             isGenerating := isGenerating st; error := error st;
             generated := u :: generated st; closed := S (closed st) |}
        else
          {| prompt := prompt st; size := size st;
             isGenerating := isGenerating st;
             error :=
               Some (JS.lit
                       "Could not generate image. Try a different prompt.");
             generated := generated st; closed := closed st |}
    | JS.Resolved None =>
        {| prompt := prompt st; size := size st;
           isGenerating := isGenerating st;
           error :=
             Some (JS.lit
                     "Could not generate image. Try a different prompt.");
           generated := generated st; closed := closed st |}
    | JS.Rejected _ =>
        {| prompt := prompt st; size := size st;
           isGenerating := isGenerating st;
           error := Some (JS.lit "API Error: Failed to generate image.");
           generated := generated st; closed := closed st |}
    end in
  {| prompt := prompt st; size := size st; isGenerating := false;
     error := error st; generated := generated st; closed := closed st |}.

(** A whole run of [handleGenerate], the service settling with
    [response]. *)
Definition generate {E : Type}
    (response : JS.Promise GeminiService.GenerateContentResponse E)
    (st : State) : State :=
  match handleGenerate st with
  | (st', Some _) =>
      resume (GeminiService.generateGameBackground response) st'
  | (st', None) => st'
  end.

End BackgroundGenerator.

(** ** The chat panel (second part of
    [src/services/geminiService.ts]) *)

Module ChatInterface.

Record State : Set := mkState {
  messages : list ChatMessage;
  input : JS.str;
  isLoading : bool
}.

Definition greeting : JS.str :=
  JS.lit "Hey there! Nice throw... or was it? Ask me anything or just chat while you play!".

(** The state after [useState]; [now] is the time of the first render. *)
Definition initial (now : Z) : State :=
  {| messages := [ {| role := model; text := greeting; timestamp := now |} ];
     input := [];
     isLoading := false |}.

(** The call [sendChatMessage(messages, input)]. *)
Record Request : Set := mkRequest {
  history : list ChatMessage;
  newMessage : JS.str
}.

(** [handleSend] up to its [await], at time [now]. *)
Definition handleSend (now : Z) (st : State) : State * option Request :=
  if negb (JS.truthy (JS.trim (input st))) || isLoading st then (st, None)
  else
    let userMsg := {| role := user; text := input st; timestamp := now |} in
    ({| messages := messages st ++ [userMsg]; input := [];
        isLoading := true |},
     Some {| history := messages st; newMessage := input st |}).

(** [handleSend] from its [await] on, at time [now], with the text
    [sendChatMessage] resolved to.  [sendChatMessage] catches every error,
    so the [catch] of [handleSend] is never entered. *)
Definition resume (now : Z) (responseText : JS.str) (st : State) : State :=
  {| messages :=
       messages st
       ++ [ {| role := model; text := responseText; timestamp := now |} ];
     input := input st;
     isLoading := false |}.

(** What happens to the panel: the user edits the input, sends, or the
    pending call of the service settles. *)
Inductive Event (E : Type) : Type :=
| Change (value : JS.str)
| Send (now : Z)
| Settle (now : Z)
    (result : JS.Promise GeminiService.GenerateContentResponse E).

Arguments Change {E} value.
Arguments Send {E} now.
Arguments Settle {E} now result.

(** A call settles only while one is pending, that is while loading. *)
Definition step {E : Type} (st : State) (e : Event E) : State :=
  match e with
  | Change v =>
      {| messages := messages st; input := v; isLoading := isLoading st |}
  | Send now => fst (handleSend now st)
  | Settle now result =>
      if isLoading st
      then resume now (GeminiService.sendChatMessage result) st
      else st
  end.

Definition run {E : Type} (st : State) (es : list (Event E)) : State :=
  fold_left step es st.

(** The roles of a conversation that starts with the model and
    alternates. *)
Fixpoint alternates (expected : Role) (ms : list ChatMessage) : bool :=
  match ms with
  | [] => true
  | m :: rest =>
      match expected, role m with
      | model, model => alternates user rest
      | user, user => alternates model rest
      | _, _ => false
      end
  end.

(** The role expected after the messages [ms], when [expected] is the
    role expected first. *)
Fixpoint nextRole (expected : Role) (ms : list ChatMessage) : Role :=
  match ms with
  | [] => expected
  | _ :: rest =>
      nextRole (match expected with user => model | model => user end) rest
  end.

End ChatInterface.

(** What holds of the panel at all times. *)
Definition chatInv (st : ChatInterface.State) : Prop :=
  ChatInterface.alternates model (ChatInterface.messages st) = true
  /\ ChatInterface.nextRole model (ChatInterface.messages st)
     = (if ChatInterface.isLoading st then model else user)
  /\ Forall (fun m => JS.truthy (text m) = true) (ChatInterface.messages st)
  /\ exists now rest,
       ChatInterface.messages st
       = {| role := model; text := ChatInterface.greeting;
            timestamp := now |} :: rest.

(** ** Sample responses and panels *)

(** A response whose second part carries an image. *)
Definition sampleResponse
    : JS.Promise GeminiService.GenerateContentResponse unit :=
  JS.Resolved
    {| GeminiService.candidates :=
         Some
           [ {| GeminiService.content :=
                  Some
                    {| GeminiService.parts :=
                         Some
                           [ {| GeminiService.partText :=
                                  Some (JS.lit "a desk");
                                GeminiService.inlineData := None |};
                             {| GeminiService.partText := None;
                                GeminiService.inlineData :=
                                  Some
                                    {| GeminiService.data :=
                                         Some (JS.lit "iVBOR") |} |} ] |} |} ];
       GeminiService.responseText := None |}.

(** The scene generator with a prompt typed in. *)
Definition samplePanel : BackgroundGenerator.State :=
  {| BackgroundGenerator.prompt := JS.lit "an office";
     BackgroundGenerator.size := Size2K;
     BackgroundGenerator.isGenerating := false;
     BackgroundGenerator.error := None;
     BackgroundGenerator.generated := [];
     BackgroundGenerator.closed := 0 |}.

(** * Properties *)

(** ** Comparison operators *)

Module NumFacts.
Import Num.

Lemma leb_iff (a b : Q) : leb a b = true <-> a <= b.
Proof. apply Qle_bool_iff. Qed.

Lemma ltb_iff (a b : Q) : ltb a b = true <-> a < b.
Proof.
  unfold ltb. rewrite negb_true_iff, <- not_true_iff_false, Qle_bool_iff.
  split; [apply Qnot_le_lt | apply Qlt_not_le].
Qed.

Lemma gtb_iff (a b : Q) : gtb a b = true <-> b < a.
Proof. apply ltb_iff. Qed.

Lemma geb_iff (a b : Q) : geb a b = true <-> b <= a.
Proof. apply leb_iff. Qed.

Lemma ltb_false_iff (a b : Q) : ltb a b = false <-> b <= a.
Proof.
  unfold ltb. rewrite negb_false_iff. apply Qle_bool_iff.
Qed.

Lemma leb_false_iff (a b : Q) : leb a b = false <-> b < a.
Proof.
  rewrite <- not_true_iff_false, leb_iff.
  split; [apply Qnot_le_lt | apply Qlt_not_le].
Qed.

End NumFacts.
Import NumFacts.

(** ** The outcome tests *)

Lemma binCheck_inBin (c : Component) :
  binCheck c =
  if inBin (ball (physicsState c))
  then setTimeout ResetBall 1000 (incrementScore (setGameState LANDED c))
  else c.
Proof.
  unfold binCheck, inBin.
  destruct (Num.geb _ _ && Num.leb _ _); cbn [andb]; [ | reflexivity].
  destruct (Num.ltb (Qabs (y _ - _)) _); cbn [andb]; reflexivity.
Qed.

Lemma missCheck_isMiss (c : Component) :
  missCheck c =
  if isMiss (ball (physicsState c))
  then setTimeout ResetBall 1000 (setGameState MISSED c)
  else c.
Proof. reflexivity. Qed.

Lemma inBin_iff (b : Point3D) :
  inBin b = true <->
  (BIN_Z <= z b /\ z b <= BIN_Z + 50)
  /\ Qabs (y b - 150) < 50
  /\ Qabs (x b) < 60.
Proof.
  unfold inBin.
  rewrite !andb_true_iff, geb_iff, leb_iff, !ltb_iff.
  unfold binRimY, BIN_RADIUS. tauto.
Qed.

Lemma isMiss_iff (b : Point3D) :
  isMiss b = true <-> 500 < y b \/ BIN_Z + 200 < z b.
Proof.
  unfold isMiss. rewrite orb_true_iff, !gtb_iff.
  unfold floorY, BIN_Z. split; intros [H | H]; (left; lra) || (right; lra).
Qed.

(** A ball in the bin is above the floor line and short of the far limit. *)
Lemma inBin_not_isMiss (b : Point3D) : inBin b = true -> isMiss b = false.
Proof.
  intros Hin. apply not_true_is_false. intros Hmiss.
  apply inBin_iff in Hin. apply isMiss_iff in Hmiss.
  destruct Hin as [[_ Hz] [Hy _]].
  apply Qabs_Qlt_condition in Hy.
  unfold BIN_Z in *. destruct Hmiss; lra.
Qed.

(** ** What a Thrown iteration does *)

Lemma resize_not_idle (phase : GameState) (iw ih : Z) (c : Component) :
  phase <> IDLE ->
  let c' := resize phase iw ih c in
  gameState c' = gameState c /\ score c' = score c
  /\ physicsState c' = physicsState c /\ timeouts c' = timeouts c
  /\ reported c' = reported c.
Proof.
  intros Hp. unfold resize.
  destruct (negb _ || negb _); [ | cbn; tauto].
  destruct phase; try contradiction; cbn; tauto.
Qed.


Lemma frame_thrown (wind : Wind) (iw ih : Z) (c : Component) :
  gameState c = THROWN ->
  let c' := frame wind iw ih c in
  let b := ball (physicsState c') in
  physicsState c' = integrate wind (physicsState c)
  /\ gameState c' =
       (if isMiss b then MISSED else if inBin b then LANDED else THROWN)
  /\ score c' = (if inBin b then score c + 1 else score c)%Z
  /\ reported c' =
       (if inBin b then (score c + 1)%Z :: reported c else reported c)
  /\ timeouts c' =
       timeouts c ++ (if inBin b then [resetTimer] else [])
                  ++ (if isMiss b then [resetTimer] else []).
Proof.
  intros Hg. unfold frame, render. rewrite Hg. cbn [fst].
  assert (Hne : THROWN <> IDLE) by discriminate.
  destruct (resize_not_idle THROWN iw ih c Hne) as (Rg & Rs & Rp & Rt & Rr).
  set (r := resize THROWN iw ih c) in *.
  unfold physics. rewrite missCheck_isMiss, binCheck_inBin.
  cbn [physicsState setPhysics]. rewrite Rp.
  set (p := integrate wind (physicsState c)).
  change (physicsState (setPhysics p r)) with p.
  clearbody p r.
  destruct (inBin (ball p)) eqn:Hin.
  - pose proof (inBin_not_isMiss _ Hin) as Hm.
    change (physicsState (setTimeout ResetBall 1000
              (incrementScore (setGameState LANDED (setPhysics p r)))))
      with p.
    rewrite Hm. cbn. rewrite Hin, Hm, Rs, Rr, Rt, app_nil_r.
    repeat split; reflexivity.
  - change (physicsState (setPhysics p r)) with p.
    destruct (isMiss (ball p)) eqn:Hm; cbn; rewrite Hin, Hm, Rs, Rr, Rt;
      rewrite ?app_nil_r, ?Rg, ?Hg; repeat split; reflexivity.
Qed.

(** ** The invariant *)

Lemma resetBall_Inv (w h : Z) (c : Component) :
  timeouts c = [] -> Inv (resetBall w h c).
Proof.
  intros Ht. constructor; cbn; try lra.
  - discriminate.
  - reflexivity.
  - exact Ht.
Qed.

Lemma handlePointerDown_Inv (ex ey : Q) (c : Component) :
  Inv c -> Inv (handlePointerDown ex ey c).
Proof.
  intros [Hb Hv Ht Hr Hq]. unfold handlePointerDown.
  destruct (gameState c) eqn:Hg; try (constructor; rewrite ?Hg; assumption).
  constructor; cbn; try assumption.
  - discriminate.
  - intros _. apply Hr. rewrite ?Hg. now left.
Qed.

Lemma handlePointerMove_Inv (ex ey : Q) (c : Component) :
  Inv c -> Inv (handlePointerMove ex ey c).
Proof.
  intros [Hb Hv Ht Hr Hq]. unfold handlePointerMove.
  destruct (gameState c) eqn:Hg; try (constructor; rewrite ?Hg; assumption).
  constructor; cbn; rewrite ?Hg; assumption.
Qed.

(** A committed throw has a forward speed of at least 11.25. *)
Lemma throw_forward (t : Q) :
  Num.ltb (Qabs t) 50 = false -> 11.25 <= Qabs t * THROW_SCALE * 1.5.
Proof.
  intros H. apply ltb_false_iff in H. unfold THROW_SCALE. lra.
Qed.

Lemma handlePointerUp_Inv (c : Component) : Inv c -> Inv (handlePointerUp c).
Proof.
  intros [Hb Hv Ht Hr Hq]. unfold handlePointerUp.
  destruct (gameState c) eqn:Hg; try (constructor; rewrite ?Hg; assumption).
  destruct (Num.ltb _ 50) eqn:Hlt.
  - constructor; cbn; try assumption.
    + discriminate.
    + intros _. apply Hr. rewrite ?Hg. now right.
  - pose proof (throw_forward _ Hlt) as Hz.
    constructor; cbn; try assumption; try lra.
    intros [H | H]; discriminate.
Qed.

Lemma fireTimeout_Inv (c : Component) : Inv c -> Inv (fireTimeout c).
Proof.
  intros HI. unfold fireTimeout.
  destruct (timeouts c) as [ | t rest] eqn:Ht; [exact HI | ].
  destruct (callback t). apply resetBall_Inv. cbn.
  destruct HI as [_ _ _ _ Hq]. rewrite Ht in Hq.
  destruct (gameState c); try discriminate; now inversion Hq.
Qed.

Lemma cleanup_Inv (c : Component) : Inv c -> Inv (cleanup c).
Proof. intros [Hb Hv Ht Hr Hq]. constructor; assumption. Qed.

(** An iteration outside flight: unfold [render] for the phase given by
    [Hg] and split on whether the canvas is resized. *)
Ltac at_rest Hg :=
  unfold frame, render, physics, resize; cbn [fst]; rewrite Hg;
  destruct (negb _ || negb _); cbn; rewrite ?Hg.

Lemma frame_Inv (wind : Wind) (iw ih : Z) (c : Component) :
  Inv c -> Inv (frame wind iw ih c).
Proof.
  intros [Hb Hv Ht Hr Hq].
  destruct (gameState c) eqn:Hg.
  - (* IDLE *)
    at_rest Hg; constructor; cbn; rewrite ?Hg;
      try lra; try discriminate; try assumption; try reflexivity;
      intros _; apply Hr; now left.
  - (* DRAGGING *)
    at_rest Hg; constructor; cbn; rewrite ?Hg;
      try lra; try discriminate; try assumption;
      intros _; apply Hr; now right.
  - (* THROWN *)
    destruct (frame_thrown wind iw ih c Hg) as (Fp & Fg & _ & _ & Fq).
    rewrite Fp in Fg, Fq. specialize (Ht eq_refl).
    set (b' := ball (integrate wind (physicsState c))) in *.
    assert (Hz : 0 < z (velocity (integrate wind (physicsState c)))).
    { cbn. unfold AIR_RESISTANCE. lra. }
    assert (Hzb : 0 <= z b').
    { cbn. unfold AIR_RESISTANCE. lra. }
    constructor; rewrite ?Fg, ?Fq, ?Hq, ?Fp;
      try exact Hzb; try exact (Qlt_le_weak _ _ Hz); try (intros _; exact Hz).
    + destruct (isMiss b'); [ | destruct (inBin b')]; intros [H | H];
        discriminate.
    + destruct (inBin b') eqn:Hin.
      * rewrite (inBin_not_isMiss _ Hin). reflexivity.
      * destruct (isMiss b'); reflexivity.
  - (* LANDED *)
    at_rest Hg; constructor; cbn; rewrite ?Hg;
      try discriminate; try assumption; intros [H | H]; discriminate.
  - (* MISSED *)
    at_rest Hg; constructor; cbn; rewrite ?Hg;
      try discriminate; try assumption; intros [H | H]; discriminate.
Qed.

Lemma initial_Inv : Inv initial.
Proof.
  constructor; cbn; try lra; try reflexivity; discriminate.
Qed.

Lemma step_Inv (s : System) (e : Event) :
  Inv (component s) -> Inv (component (step s e)).
Proof.
  intros HI. unfold step.
  destruct e; destruct (mounted s); cbn [component]; try exact HI;
    auto using handlePointerDown_Inv, handlePointerMove_Inv,
      handlePointerUp_Inv, frame_Inv, fireTimeout_Inv, cleanup_Inv.
Qed.

Lemma run_Inv (es : list Event) (s : System) :
  Inv (component s) -> Inv (component (run s es)).
Proof.
  revert s. induction es as [ | e es IH]; intros s HI; [exact HI | ].
  cbn. apply IH, step_Inv, HI.
Qed.

Lemma reachable_Inv (s : System) : reachable s -> Inv (component s).
Proof.
  intros [es <-]. apply run_Inv. exact initial_Inv.
Qed.

(** ** The physics step and the outcome of a Thrown iteration *)



(** C1. In an iteration that starts in phase Thrown the ball is scored
    (phase Landed, score one higher) exactly when its position after the
    integration step has its depth in [[BIN_Z, BIN_Z + 50]], its height
    within 50 of the rim height 150 and its sideways offset below the
    radius 60; as soon as one of the three tests fails the iteration
    leaves the score and the reported scores alone and does not enter
    Landed. *)
Theorem scored_iff_three_conditions (wind : Wind) (iw ih : Z)
    (c : Component) :
  gameState c = THROWN ->
  let c' := frame wind iw ih c in
  let b := ball (physicsState c') in
  let scored := gameState c' = LANDED /\ score c' = (score c + 1)%Z in
  let notScored :=
    gameState c' <> LANDED /\ score c' = score c
    /\ reported c' = reported c in
  b = ball (integrate wind (physicsState c))
  /\ (scored <->
      (BIN_Z <= z b /\ z b <= BIN_Z + 50)
      /\ Qabs (y b - 150) < 50 /\ Qabs (x b) < 60)
  /\ (~ (BIN_Z <= z b /\ z b <= BIN_Z + 50) -> notScored)
  /\ (~ Qabs (y b - 150) < 50 -> notScored)
  /\ (~ Qabs (x b) < 60 -> notScored).
Proof.
  intros Hg.
  destruct (frame_thrown wind iw ih c Hg) as (Fp & Fg & Fs & Fr & _).
  cbn zeta.
  set (b := ball (physicsState (frame wind iw ih c))) in *.
  assert (Hno : inBin b = false ->
                gameState (frame wind iw ih c) <> LANDED
                /\ score (frame wind iw ih c) = score c
                /\ reported (frame wind iw ih c) = reported c).
  { intros Hin. rewrite Fg, Fs, Fr, Hin.
    repeat split. destruct (isMiss b); discriminate. }
  split; [unfold b; now rewrite Fp | ].
  split.
  - rewrite <- inBin_iff. split.
    + intros [HL _]. rewrite Fg in HL.
      destruct (isMiss b); [discriminate | ].
      destruct (inBin b); [reflexivity | discriminate].
    + intros Hin. rewrite Fg, Fs, Hin, (inBin_not_isMiss _ Hin). now split.
  - split; [ | split]; intros Hn; apply Hno, not_true_is_false;
      rewrite inBin_iff; tauto.
Qed.

Lemma scored_iff_three_conditions_witness :
  gameState beforeBin = THROWN
  /\ score (frame calm 300 150 beforeBin) = 1%Z.
Proof.
  split; [reflexivity | ].
  destruct (scored_iff_three_conditions calm 300 150 beforeBin eq_refl)
    as (_ & Hiff & _).
  apply Hiff. vm_compute. intuition discriminate.
Defined.

(** C3. An iteration that starts in phase Thrown ends in phase Missed
    exactly when the ball's position after the integration step is below
    the floor line ([y > 500]) or beyond the far limit
    ([z > BIN_Z + 200]); and a position that passes the three tests of the
    bin is recorded as scored (phase Landed, score one higher), also if
    it passed the miss test as well; on the constants of the source no
    position passes both. *)
Theorem missed_iff_overshoot (wind : Wind) (iw ih : Z) (c : Component) :
  gameState c = THROWN ->
  let c' := frame wind iw ih c in
  let b := ball (physicsState c') in
  let inTheBin :=
    (BIN_Z <= z b /\ z b <= BIN_Z + 50)
    /\ Qabs (y b - 150) < 50 /\ Qabs (x b) < 60 in
  let pastTheBin := 500 < y b \/ BIN_Z + 200 < z b in
  (gameState c' = MISSED <-> pastTheBin)
  /\ (inTheBin ->
      gameState c' = LANDED /\ score c' = (score c + 1)%Z)
  /\ (inTheBin /\ pastTheBin ->
      gameState c' = LANDED /\ score c' = (score c + 1)%Z)
  /\ ~ (inTheBin /\ pastTheBin).
Proof.
  intros Hg.
  destruct (frame_thrown wind iw ih c Hg) as (_ & Fg & Fs & _).
  cbn zeta.
  set (b := ball (physicsState (frame wind iw ih c))) in *.
  assert (Hin : (BIN_Z <= z b /\ z b <= BIN_Z + 50)
                /\ Qabs (y b - 150) < 50 /\ Qabs (x b) < 60 ->
                gameState (frame wind iw ih c) = LANDED
                /\ score (frame wind iw ih c) = (score c + 1)%Z).
  { intros H. apply inBin_iff in H.
    rewrite Fg, Fs, H, (inBin_not_isMiss _ H). now split. }
  split; [ | split; [exact Hin | split; [intros [H _]; exact (Hin H) | ]]].
  2: { rewrite <- inBin_iff, <- isMiss_iff. intros [H1 H2].
       rewrite (inBin_not_isMiss _ H1) in H2. discriminate. }
  rewrite <- isMiss_iff, Fg.
  destruct (isMiss b); [now split | ].
  destruct (inBin b); split; discriminate.
Qed.

Lemma missed_iff_overshoot_witness :
  gameState nearFloor = THROWN
  /\ gameState (frame calm 300 150 nearFloor) = MISSED.
Proof.
  split; [reflexivity | ].
  destruct (missed_iff_overshoot calm 300 150 nearFloor eq_refl)
    as (Hiff & _).
  apply Hiff. left. vm_compute. reflexivity.
Defined.

(** ** Releasing a drag *)

Lemma step_pointerUp (s : System) :
  mounted s = true ->
  component (step s PointerUp) = handlePointerUp (component s).
Proof. intros Hm. unfold step. now rewrite Hm. Qed.

(** Only the upward part of the drag is throw power. *)
Lemma throwPower_cases (dy : Q) :
  (dy < 0 /\ Qmin dy 0 == dy /\ Qabs (Qmin dy 0) == - dy)
  \/ (0 <= dy /\ Qmin dy 0 == 0 /\ Qabs (Qmin dy 0) == 0).
Proof.
  destruct (Q.min_spec dy 0) as [[Hlt He] | [Hle He]].
  - left. repeat split; try assumption.
    rewrite He. apply Qabs_neg. lra.
  - right. repeat split; try assumption.
    rewrite He. reflexivity.
Qed.

Lemma throwPower_weak (dy : Q) : Qabs (Qmin dy 0) < 50 <-> -50 < dy.
Proof.
  destruct (throwPower_cases dy) as [(H & _ & Ha) | (H & _ & Ha)];
    rewrite Ha; split; intros; lra.
Qed.

Lemma handlePointerUp_dragging (c : Component) :
  gameState c = DRAGGING ->
  let dy := dragDy (physicsState c) in
  (-50 < dy /\ handlePointerUp c = setGameState IDLE c)
  \/ (dy <= -50
      /\ handlePointerUp c =
         setGameState THROWN
           (setPhysics
              (setVelocity
                 {| x := dragDx (physicsState c) * THROW_SCALE * 0.5;
                    y := Qmin dy 0 * THROW_SCALE * 0.8;
                    z := Qabs (Qmin dy 0) * THROW_SCALE * 1.5 |}
                 (physicsState c)) c)).
Proof.
  intros Hg. cbn zeta. unfold handlePointerUp. rewrite Hg.
  destruct (Num.ltb _ 50) eqn:Hlt.
  - left. apply ltb_iff, throwPower_weak in Hlt. now split.
  - right. apply ltb_false_iff in Hlt. split; [ | reflexivity].
    apply Qnot_lt_le. intros H. apply throwPower_weak in H. lra.
Qed.

(** C4. Releasing a drag whose upward part is below 50, that is
    [|min(dy, 0)| < 50], puts the phase back to Idle and leaves the ball
    and its zero velocity as they were, whatever [dx] is; this covers every
    drag with [|dy| < 50] and every horizontal or downward drag
    ([0 <= dy]).  The release leads to Thrown only when the drag goes up
    by at least 50 ([dy <= -50]).  Leaving the canvas acts as a release. *)
Theorem weak_drag_cancels (s : System) :
  reachable s ->
  mounted s = true ->
  gameState (component s) = DRAGGING ->
  let p := physicsState (component s) in
  let dy := dragDy p in
  let c' := component (step s PointerUp) in
  (Qabs (Qmin dy 0) < 50 ->
   gameState c' = IDLE /\ velocity (physicsState c') = origin
   /\ physicsState c' = p)
  /\ (Qabs dy < 50 -> Qabs (Qmin dy 0) < 50)
  /\ (0 <= dy -> Qabs (Qmin dy 0) < 50)
  /\ (gameState c' = THROWN <-> dy <= -50)
  /\ step s PointerLeave = step s PointerUp.
Proof.
  intros Hr Hm Hg. cbn zeta. rewrite (step_pointerUp s Hm).
  pose proof (reachable_Inv s Hr) as HI.
  pose proof (inv_rest _ HI (or_intror Hg)) as Hv.
  destruct (handlePointerUp_dragging _ Hg) as [[Hd He] | [Hd He]];
    rewrite He; cbn [gameState physicsState setGameState setPhysics].
  - split; [intros _; now repeat split | ].
    split; [intros H; apply throwPower_weak; apply Qabs_Qlt_condition in H; lra | ].
    split; [intros H; apply throwPower_weak; lra | ].
    split; [ | reflexivity].
    split; [discriminate | lra].
  - split; [intros H; apply throwPower_weak in H; lra | ].
    split; [intros H; apply throwPower_weak; apply Qabs_Qlt_condition in H; lra | ].
    split; [intros H; apply throwPower_weak; lra | ].
    split; [ | reflexivity].
    split; [intros _; exact Hd | reflexivity].
Qed.

Lemma weak_drag_cancels_witness :
  let s := run start [tick; PointerDown 100 500;
                      PointerMove 160 480] in
  gameState (component s) = DRAGGING
  /\ gameState (component (step s PointerUp)) = IDLE
  /\ velocity (physicsState (component (step s PointerUp))) = origin.
Proof.
  set (es := [tick; PointerDown 100 500; PointerMove 160 480]).
  cbn zeta. split; [reflexivity | ].
  destruct (weak_drag_cancels (run start es) (ex_intro _ es eq_refl)
              eq_refl eq_refl) as (H & _).
  destruct H as (H1 & H2 & _); [vm_compute; reflexivity | ].
  split; assumption.
Defined.



(** ** Projection *)

(** Every iteration draws the ball it ends with, projected around the
    centre of the canvas shifted down by 100. *)
Lemma scene_projects_ball (wind : Wind) (iw ih : Z) (c : Component) :
  let c' := frame wind iw ih c in
  let sc := scene wind iw ih c in
  drawnBall sc = ball (physicsState c')
  /\ projBall sc =
     project (inject_Z (width (canvas c')) / 2)
             (inject_Z (height (canvas c')) / 2 + 100)
             (drawnBall sc).
Proof. split; reflexivity. Qed.



(** ** What each phase does to the ball *)

Lemma frame_at_rest (wind : Wind) (iw ih : Z) (c : Component) :
  gameState c = IDLE \/ gameState c = DRAGGING ->
  let c' := frame wind iw ih c in
  ball (physicsState c') = launchPoint
  /\ (velocity (physicsState c') = velocity (physicsState c)
      \/ gameState c = IDLE /\ velocity (physicsState c') = origin)
  /\ (gameState c' = gameState c \/ gameState c' = IDLE)
  /\ score c' = score c /\ timeouts c' = timeouts c
  /\ reported c' = reported c.
Proof.
  intros [Hg | Hg]; at_rest Hg; intuition.
Qed.

Lemma frame_terminal (wind : Wind) (iw ih : Z) (c : Component) :
  gameState c = LANDED \/ gameState c = MISSED ->
  let c' := frame wind iw ih c in
  physicsState c' = physicsState c /\ gameState c' = gameState c
  /\ score c' = score c /\ timeouts c' = timeouts c.
Proof.
  intros [Hg | Hg]; at_rest Hg; intuition.
Qed.

(** C8. An iteration of the render loop runs the integration step on the
    ball only if it starts in phase Thrown.  Started in Idle or Dragging
    it puts the ball on the launch point (0, 300, 0) before it draws it,
    and leaves the velocity alone (or zeroes it, when an idle ball is
    reset on a resize); started in Landed or Missed it leaves both
    alone. *)
Theorem integration_only_when_thrown (wind : Wind) (iw ih : Z)
    (c : Component) :
  let c' := frame wind iw ih c in
  let sc := scene wind iw ih c in
  drawnBall sc = ball (physicsState c')
  /\ (gameState c = THROWN ->
      physicsState c' = integrate wind (physicsState c))
  /\ (gameState c = IDLE \/ gameState c = DRAGGING ->
      ball (physicsState c') = {| x := 0; y := 300; z := 0 |}
      /\ drawnBall sc = {| x := 0; y := 300; z := 0 |}
      /\ (velocity (physicsState c') = velocity (physicsState c)
          \/ velocity (physicsState c') = {| x := 0; y := 0; z := 0 |}))
  /\ (gameState c = DRAGGING ->
      velocity (physicsState c') = velocity (physicsState c))
  /\ (gameState c = LANDED \/ gameState c = MISSED ->
      physicsState c' = physicsState c).
Proof.
  cbn zeta. split; [reflexivity | ].
  split; [intros Hg; apply (frame_thrown wind iw ih c Hg) | ].
  split; [ | split].
  - intros Hg.
    destruct (frame_at_rest wind iw ih c Hg) as (Hb & Hv & _).
    split; [exact Hb | ]. split; [exact Hb | ].
    destruct Hv as [Hv | [_ Hv]]; [now left | now right].
  - intros Hg.
    destruct (frame_at_rest wind iw ih c (or_intror Hg)) as (_ & Hv & _).
    destruct Hv as [Hv | [Hi _]]; [exact Hv | congruence].
  - intros Hg. apply (frame_terminal wind iw ih c Hg).
Qed.

Lemma integration_only_when_thrown_witness :
  let s := run start [tick; PointerDown 100 500] in
  gameState (component s) = DRAGGING
  /\ drawnBall (scene calm 800 600 (component s))
     = {| x := 0; y := 300; z := 0 |}.
Proof.
  cbn zeta. split; [reflexivity | ].
  destruct (integration_only_when_thrown calm 800 600
              (component (run start [tick; PointerDown 100 500])))
    as (_ & _ & H & _).
  apply H. right. reflexivity.
Defined.

(** ** The ball stays in front of the camera *)

Lemma scale_bounds (ox oy : Q) (p : Point3D) :
  0 <= z p ->
  0 < scale (project ox oy p) /\ scale (project ox oy p) <= 1.
Proof.
  intros Hz. cbn [scale project]. unfold PERSPECTIVE. split.
  - apply Qlt_shift_div_l; lra.
  - apply Qle_shift_div_r; lra.
Qed.

(** C9. In every reachable state the ball's depth is not negative: it
    rests or is reset at depth 0, a committed throw starts with the
    forward velocity [|dy| * 0.225], at least 11.25, a ball in flight
    keeps a positive forward velocity, and the integration step only
    adds it to the depth.  So the divisor of the projection is at least
    800, never zero, and the scale of the projected ball, in any frame
    drawn, is above 0 and at most 1. *)
Theorem ball_in_front_of_camera (s : System) :
  reachable s ->
  let c := component s in
  let b := ball (physicsState c) in
  0 <= z b
  /\ 800 <= PERSPECTIVE + z b
  /\ ~ PERSPECTIVE + z b == 0
  /\ (gameState c = IDLE \/ gameState c = DRAGGING ->
      z (velocity (physicsState c)) = 0)
  /\ (gameState c = THROWN -> 0 < z (velocity (physicsState c)))
  /\ (mounted s = true -> gameState c = DRAGGING ->
      let c' := component (step s PointerUp) in
      gameState c' = THROWN ->
      z (velocity (physicsState c'))
        == Qabs (dragDy (physicsState c)) * 0.225
      /\ 11.25 <= z (velocity (physicsState c')))
  /\ (forall ox oy,
        0 < scale (project ox oy b) /\ scale (project ox oy b) <= 1)
  /\ (forall wind iw ih,
        0 < scale (projBall (scene wind iw ih c))
        /\ scale (projBall (scene wind iw ih c)) <= 1).
Proof.
  intros Hr. cbn zeta.
  pose proof (reachable_Inv s Hr) as HI.
  pose proof (inv_ball _ HI) as Hz.
  split; [exact Hz | ].
  split; [unfold PERSPECTIVE; lra | ].
  split; [unfold PERSPECTIVE; lra | ].
  split; [intros Hg; now rewrite (inv_rest _ HI Hg) | ].
  split; [exact (inv_thrown _ HI) | ].
  split; [ | split].
  - intros Hm Hg. rewrite (step_pointerUp s Hm).
    destruct (handlePointerUp_dragging _ Hg) as [[_ He] | [Hd He]];
      rewrite He; cbn [gameState setGameState]; [discriminate | ].
    intros _.
    cbn [physicsState velocity setGameState setPhysics setVelocity z].
    set (dy := dragDy (physicsState (component s))) in *.
    destruct (throwPower_cases dy) as [(H & _ & Ha) | (H & _)]; [ | lra].
    assert (Hq : Qabs dy == - dy) by (apply Qabs_neg; lra).
    unfold THROW_SCALE. split; lra.
  - intros ox oy. apply scale_bounds, Hz.
  - intros wind iw ih.
    destruct (scene_projects_ball wind iw ih (component s)) as (Hd & Hp).
    rewrite Hp, Hd.
    apply scale_bounds, (inv_ball _ (frame_Inv wind iw ih _ HI)).
Qed.

Lemma ball_in_front_of_camera_witness :
  0 < scale (projBall (scene calm 800 600 (component (flight 3))))
  /\ scale (projBall (scene calm 800 600 (component (flight 3)))) <= 1.
Proof.
  apply (ball_in_front_of_camera (flight 3)).
  unfold flight. eexists. reflexivity.
Defined.

(** ** Scoring and the deferred reset *)

(** C7. When an iteration in phase Thrown finds the ball in the bin, that
    same iteration sets the phase to Landed, raises the score by exactly
    one, hands the new score to [onScoreUpdate], and defers one reset by
    1000 milliseconds.  When that timer fires the phase is Idle again,
    the velocity is zero and the ball is at the start position of
    [resetBall], [(0, height / 2 - 100, 0)]; the iteration that follows
    draws it on the launch point (0, 300, 0). *)
Theorem score_then_reset (s : System) (wind : Wind) (iw ih : Z) :
  reachable s ->
  mounted s = true ->
  gameState (component s) = THROWN ->
  let c := component s in
  let s1 := step s (Frame wind iw ih) in
  let c1 := component s1 in
  let b := ball (physicsState c1) in
  (BIN_Z <= z b /\ z b <= BIN_Z + 50)
  /\ Qabs (y b - 150) < 50 /\ Qabs (x b) < 60 ->
  (gameState c1 = LANDED
   /\ score c1 = (score c + 1)%Z
   /\ reported c1 = (score c + 1)%Z :: reported c
   /\ timeouts c1 = [ {| callback := ResetBall; delay := 1000 |} ])
  /\ (let s2 := step s1 TimerFires in
      let c2 := component s2 in
      gameState c2 = IDLE
      /\ velocity (physicsState c2) = {| x := 0; y := 0; z := 0 |}
      /\ ball (physicsState c2)
         = {| x := 0; y := inject_Z (height (canvas c1)) / 2 - 100; z := 0 |}
      /\ timeouts c2 = []
      /\ score c2 = score c1
      /\ forall wind' iw' ih',
           let c3 := component (step s2 (Frame wind' iw' ih')) in
           gameState c3 = IDLE
           /\ velocity (physicsState c3) = {| x := 0; y := 0; z := 0 |}
           /\ ball (physicsState c3) = {| x := 0; y := 300; z := 0 |}
           /\ drawnBall (scene wind' iw' ih' c2)
              = {| x := 0; y := 300; z := 0 |}
           /\ score c3 = score c1).
Proof.
  intros Hr Hm Hg. cbn zeta.
  assert (Hs1 : step s (Frame wind iw ih)
                = {| component := frame wind iw ih (component s);
                     mounted := true |})
    by (unfold step; now rewrite Hm).
  rewrite Hs1. cbn [component].
  pose proof (reachable_Inv s Hr) as HI.
  destruct (frame_thrown wind iw ih _ Hg) as (_ & Fg & Fs & Fr & Fq).
  set (c1 := frame wind iw ih (component s)) in *.
  intros Hin. apply inBin_iff in Hin.
  rewrite Hin in Fs, Fr, Fq. rewrite Hin, (inBin_not_isMiss _ Hin) in Fg.
  rewrite (inBin_not_isMiss _ Hin), (inv_timeouts _ HI), Hg in Fq.
  cbn [app] in Fq. unfold resetTimer in Fq.
  split; [now repeat split | ].
  assert (Hs2 : step {| component := c1; mounted := true |} TimerFires
                = {| component :=
                       resetBall (width (canvas c1)) (height (canvas c1))
                         (setTimeouts [] c1);
                     mounted := true |})
    by (unfold step, fireTimeout; cbn [component mounted];
        rewrite Fq; reflexivity).
  rewrite Hs2. cbn [component].
  split; [reflexivity | ]. split; [reflexivity | ].
  split; [reflexivity | ]. split; [reflexivity | ].
  split; [reflexivity | ].
  intros wind' iw' ih'.
  set (c2 := resetBall _ _ _).
  assert (Hg2 : gameState c2 = IDLE \/ gameState c2 = DRAGGING)
    by (left; reflexivity).
  destruct (frame_at_rest wind' iw' ih' c2 Hg2)
    as (Hb & Hv & Hp & Hsc & _).
  cbn [step component mounted].
  destruct (scene_projects_ball wind' iw' ih' c2) as (Hd & _).
  rewrite Hd. fold launchPoint.
  split; [destruct Hp as [Hp | Hp]; rewrite Hp; reflexivity | ].
  split; [destruct Hv as [Hv | [_ Hv]]; rewrite Hv; reflexivity | ].
  split; [exact Hb | ]. split; [exact Hb | ].
  rewrite Hsc. reflexivity.
Qed.

Lemma flight_reachable (n : nat) : reachable (flight n).
Proof.
  unfold flight. eexists. reflexivity.
Qed.

(** The sample flight is still under way after 33 iterations and the ball
    is in the bin in the 34th. *)
Lemma flight_scores :
  let s := flight 33 in
  mounted s = true
  /\ gameState (component s) = THROWN
  /\ inBin (ball (physicsState (component (step s tick))))
     = true.
Proof. vm_compute. repeat split. Qed.

Lemma score_then_reset_witness :
  gameState (component (flight 33)) = THROWN
  /\ gameState (component (step (flight 33) tick)) = LANDED
  /\ timeouts (component (step (flight 33) tick))
     = [ {| callback := ResetBall; delay := 1000 |} ]
  /\ gameState
       (component (step (step (flight 33) tick) TimerFires))
     = IDLE.
Proof.
  destruct flight_scores as (Hm & Hg & Hin).
  apply inBin_iff in Hin.
  destruct (score_then_reset (flight 33) calm 800 600
              (flight_reachable 33) Hm Hg Hin)
    as ((H1 & _ & _ & H4) & H5 & _).
  exact (conj Hg (conj H1 (conj H4 H5))).
Defined.

(** ** Teardown *)

(** The clean-up cancels the animation frame and nothing else. *)
Lemma cleanup_keeps_timeouts (c : Component) :
  animationFrame (cleanup c) = false
  /\ timeouts (cleanup c) = timeouts c
  /\ physicsState (cleanup c) = physicsState c.
Proof. repeat split. Qed.

(** C10 (the code departs from it). A ball thrown past the far limit puts
    the component in phase Missed with one reset pending.  Unmounting it
    then cancels the animation frame and leaves the timer in place; when
    the timer fires, [resetBall] runs and overwrites the ball and the
    velocity of the discarded component. *)
Theorem reset_outlives_unmount :
  let s := overthrow in
  let s1 := step s Unmount in
  let s2 := step s1 TimerFires in
  (reachable s /\ mounted s = true
   /\ gameState (component s) = MISSED
   /\ timeouts (component s) = [ {| callback := ResetBall; delay := 1000 |} ])
  /\ (mounted s1 = false
      /\ animationFrame (component s1) = false
      /\ timeouts (component s1)
         = [ {| callback := ResetBall; delay := 1000 |} ])
  /\ (800 < z (ball (physicsState (component s1)))
      /\ ball (physicsState (component s2))
         = {| x := 0; y := inject_Z 600 / 2 - 100; z := 0 |}
      /\ velocity (physicsState (component s2))
         = {| x := 0; y := 0; z := 0 |}
      /\ physicsState (component s2) <> physicsState (component s1)
      /\ timeouts (component s2) = []).
Proof.
  cbn zeta. split; [ | split].
  - split.
    + unfold overthrow. eexists. reflexivity.
    + vm_compute. repeat split.
  - vm_compute. repeat split.
  - split; [vm_compute; reflexivity | ].
    split; [vm_compute; reflexivity | ].
    split; [vm_compute; reflexivity | ].
    split; [ | vm_compute; reflexivity].
    intros H. apply (f_equal (fun p => Qnum (z (ball p)))) in H.
    vm_compute in H. discriminate H.
Qed.

(** * Further properties of the game *)

(** ** Phase changes *)

Lemma frame_phase (wind : Wind) (iw ih : Z) (c : Component) :
  gameState c <> THROWN ->
  let c' := frame wind iw ih c in
  gameState c' = gameState c /\ score c' = score c
  /\ reported c' = reported c /\ timeouts c' = timeouts c.
Proof.
  intros Hn. destruct (gameState c) eqn:Hg; try contradiction;
    at_rest Hg; intuition.
Qed.

(** Every change of phase is one of the nine of [transition]: Idle to
    Dragging on a press, Dragging to Idle or Thrown on a release or a
    leave, Thrown to Landed or Missed in an iteration of [render], Landed
    or Missed to Idle when the reset timer fires.  No event skips a
    phase. *)
Theorem phase_changes_are_transitions (s : System) (e : Event) :
  reachable s ->
  let g := gameState (component s) in
  let g' := gameState (component (step s e)) in
  g' = g \/ transition e g g'.
Proof.
  intros Hr. cbn zeta.
  pose proof (reachable_Inv s Hr) as HI.
  unfold step. destruct e; destruct (mounted s) eqn:Hm; cbn [component];
    try (now left).
  - unfold handlePointerDown.
    destruct (gameState (component s)) eqn:Hg; try (left; exact Hg).
    right. constructor.
  - unfold handlePointerMove.
    destruct (gameState (component s)) eqn:Hg; left; exact Hg.
  - unfold handlePointerUp.
    destruct (gameState (component s)) eqn:Hg; try (left; exact Hg).
    destruct (Num.ltb _ 50); right; constructor.
  - unfold handlePointerUp.
    destruct (gameState (component s)) eqn:Hg; try (left; exact Hg).
    destruct (Num.ltb _ 50); right; constructor.
  - destruct (gameState (component s)) eqn:Hg;
      try (left; rewrite <- Hg; apply frame_phase; rewrite Hg; discriminate).
    destruct (frame_thrown wind innerWidth innerHeight _ Hg) as (_ & Fg & _).
    rewrite Fg. destruct (isMiss _); [right; constructor | ].
    destruct (inBin _); [right; constructor | now left].
  - pose proof (inv_timeouts _ HI) as Hq. unfold fireTimeout.
    destruct (gameState (component s)) eqn:Hg; rewrite Hq;
      try (left; exact Hg); cbn [callback resetTimer];
      right; constructor.
  - pose proof (inv_timeouts _ HI) as Hq. unfold fireTimeout.
    destruct (gameState (component s)) eqn:Hg; rewrite Hq;
      try (left; exact Hg); cbn [callback resetTimer];
      right; constructor.
Qed.

Lemma phase_changes_are_transitions_witness :
  transition PointerUp DRAGGING
    (gameState (component
       (step (run start [tick; PointerDown 100 500; PointerMove 100 390])
             PointerUp))).
Proof.
  set (es := [tick; PointerDown 100 500; PointerMove 100 390]).
  destruct (phase_changes_are_transitions (run start es) PointerUp
              (ex_intro _ es eq_refl)) as [H | H].
  - vm_compute in H. discriminate H.
  - exact H.
Defined.

(** ** The score and its reports *)

Lemma handlers_keep_score (c : Component) (ex ey : Q) :
  (score (handlePointerDown ex ey c) = score c
   /\ reported (handlePointerDown ex ey c) = reported c)
  /\ (score (handlePointerMove ex ey c) = score c
      /\ reported (handlePointerMove ex ey c) = reported c)
  /\ (score (handlePointerUp c) = score c
      /\ reported (handlePointerUp c) = reported c)
  /\ (score (fireTimeout c) = score c
      /\ reported (fireTimeout c) = reported c).
Proof.
  unfold handlePointerDown, handlePointerMove, handlePointerUp, fireTimeout.
  repeat split;
    try (destruct (gameState c); cbn zeta; try destruct (Num.ltb _ _);
         reflexivity);
    destruct (timeouts c) as [ | [[] ?] ?]; reflexivity.
Qed.

(** An event leaves the score and the reports alone, or it is an
    iteration of [render] in phase Thrown that raises the score by one and
    reports the new score. *)
Lemma step_score (s : System) (e : Event) :
  let c := component s in
  let c' := component (step s e) in
  (score c' = score c /\ reported c' = reported c)
  \/ (isFrame e = true /\ gameState c = THROWN
      /\ score c' = (score c + 1)%Z
      /\ reported c' = (score c + 1)%Z :: reported c).
Proof.
  cbn zeta.
  destruct (handlers_keep_score (component s) 0 0) as (_ & _ & Hu & Ht).
  unfold step.
  destruct e; destruct (mounted s); cbn [component];
    try (left; split; reflexivity); try (left; exact Hu);
    try (left; exact Ht).
  - left. apply (handlers_keep_score (component s) ex ey).
  - left. apply (handlers_keep_score (component s) ex ey).
  - destruct (gameState (component s)) eqn:Hg;
      try (destruct (frame_phase wind innerWidth innerHeight (component s))
             as (_ & Hs & Hp & _);
           [rewrite Hg; discriminate | left; split; assumption]).
    destruct (frame_thrown wind innerWidth innerHeight _ Hg)
      as (_ & _ & Fs & Fr & _).
    rewrite Fs, Fr. destruct (inBin _); [right | left]; intuition.
Qed.

Lemma countdown_S (n : nat) :
  countdown (S n) = Z.of_nat (S n) :: countdown n.
Proof.
  unfold countdown. rewrite seq_S, rev_app_distr. reflexivity.
Qed.

Lemma reports_count_down_aux (s : System) :
  reachable s ->
  let c := component s in
  (0 <= score c)%Z /\ reported c = countdown (Z.to_nat (score c)).
Proof.
  intros [es <-]. cbn zeta. unfold run.
  induction es as [ | e es IH] using rev_ind;
    [cbn; split; [lia | reflexivity] | ].
  rewrite fold_left_app. cbn [fold_left].
  destruct IH as [IH0 IHr].
  destruct (step_score (fold_left step es start) e)
    as [[Hs Hp] | (_ & _ & Hs & Hp)]; rewrite Hs, Hp.
  - split; assumption.
  - split; [lia | ].
    rewrite IHr, Z2Nat.inj_add, Nat.add_1_r, countdown_S by lia.
    f_equal. lia.
Qed.



(** Whatever the state and the events, a run never lowers the score, and
    raises it by at most the number of iterations of [render] in it. *)
Theorem score_never_decreases (s : System) (es : list Event) :
  (score (component s) <= score (component (run s es)))%Z
  /\ (score (component (run s es))
      <= score (component s) + Z.of_nat (List.length (filter isFrame es)))%Z.
Proof.
  revert s. induction es as [ | e es IH]; intros s; [cbn; lia | ].
  cbn [run fold_left]. specialize (IH (step s e)). unfold run in IH.
  cbn [filter].
  destruct (step_score s e) as [[Hs _] | (He & _ & Hs & _)].
  - destruct (isFrame e); cbn [List.length]; lia.
  - rewrite He. cbn [List.length]. lia.
Qed.

(** ** The canvas *)

Lemma physics_canvas (phase : GameState) (wind : Wind) (c : Component) :
  canvas (physics phase wind c) = canvas c.
Proof.
  unfold physics, missCheck, binCheck.
  destruct phase; try reflexivity.
  cbn [physicsState setPhysics].
  repeat match goal with
         | |- context [if ?b then _ else _] => destruct b
         end; reflexivity.
Qed.

Lemma resize_canvas (phase : GameState) (iw ih : Z) (c : Component) :
  canvas (resize phase iw ih c) = {| width := iw; height := ih |}.
Proof.
  unfold resize.
  destruct (negb (width (canvas c) =? iw)%Z) eqn:Hw; cbn [orb].
  - destruct phase; reflexivity.
  - destruct (negb (height (canvas c) =? ih)%Z) eqn:Hh.
    + destruct phase; reflexivity.
    + apply negb_false_iff, Z.eqb_eq in Hw, Hh.
      destruct (canvas c); cbn in *. now subst.
Qed.

Lemma step_canvas (s : System) (e : Event) :
  let c := component s in
  let c' := component (step s e) in
  (forall wind iw ih,
     animationFrame (frame wind iw ih c) = true
     /\ canvas (frame wind iw ih c) = {| width := iw; height := ih |})
  /\ (isFrame e = false -> canvas c' = canvas c)
  /\ (forall wind iw ih,
        e = Frame wind iw ih -> mounted s = true ->
        canvas c' = {| width := iw; height := ih |}).
Proof.
  cbn zeta.
  assert (Hf : forall wind iw ih,
             canvas (frame wind iw ih (component s))
             = {| width := iw; height := ih |}).
  { intros. unfold frame, render. cbn [fst].
    change (canvas (setAnimationFrame true ?c)) with (canvas c).
    now rewrite physics_canvas, resize_canvas. }
  split; [intros; split; [reflexivity | apply Hf] | ].
  split.
  - unfold step, handlePointerDown, handlePointerMove, handlePointerUp,
      fireTimeout.
    destruct e; intros He; try discriminate He;
      destruct (mounted s); cbn [component]; try reflexivity;
      try (destruct (gameState (component s)); cbn zeta;
           try destruct (Num.ltb _ _); reflexivity);
      destruct (timeouts (component s)) as [ | [[] ?] ?]; reflexivity.
  - intros wind iw ih -> Hm. unfold step. rewrite Hm. apply Hf.
Qed.

(** After an iteration of [render] the canvas has the size the window had
    in that iteration, whatever it was before, and the next animation
    frame is requested; and no handler, timer or clean-up changes the size
    of the canvas. *)
Theorem canvas_follows_window (s : System) (e : Event) :
  let c := component s in
  let c' := component (step s e) in
  (forall wind iw ih,
     animationFrame (frame wind iw ih c) = true
     /\ canvas (frame wind iw ih c) = {| width := iw; height := ih |})
  /\ (isFrame e = false -> canvas c' = canvas c)
  /\ (forall wind iw ih,
        e = Frame wind iw ih -> mounted s = true ->
        canvas c' = {| width := iw; height := ih |}).
Proof. exact (step_canvas s e). Qed.

Lemma canvas_follows_window_witness :
  canvas (component (step (flight 2) (Frame calm 1024 768)))
  = {| width := 1024; height := 768 |}.
Proof.
  destruct (canvas_follows_window (flight 2) (Frame calm 1024 768))
    as (_ & _ & H).
  apply (H calm 1024%Z 768%Z eq_refl). reflexivity.
Defined.

(** ** Drags *)

Lemma last_cons {A : Type} (l : list A) (a d : A) :
  last (a :: l) d = last l a.
Proof.
  revert a d. induction l as [ | b l IH]; intros a d; [reflexivity | ].
  change (last (a :: b :: l) d) with (last (b :: l) d).
  now rewrite (IH b d), (IH b a).
Qed.

Lemma moves_while_dragging (ps : list DragPoint) (s : System) :
  mounted s = true ->
  gameState (component s) = DRAGGING ->
  let s' := run s (moves ps) in
  let p := physicsState (component s) in
  let p' := physicsState (component s') in
  mounted s' = true
  /\ gameState (component s') = DRAGGING
  /\ dragStart p' = dragStart p
  /\ dragCurrent p' = last ps (dragCurrent p)
  /\ ball p' = ball p /\ velocity p' = velocity p.
Proof.
  revert s. induction ps as [ | q ps IH]; intros s Hm Hg;
    [cbn; repeat split; assumption | ].
  cbn zeta. cbn [moves map run fold_left].
  set (s1 := step s (PointerMove (clientX q) (clientY q))).
  assert (H1 : s1 = {| component :=
                         setPhysics
                           (setDragCurrent q (physicsState (component s)))
                           (component s);
                       mounted := true |}).
  { unfold s1, step, handlePointerMove. rewrite Hm, Hg.
    destruct q; reflexivity. }
  assert (Hm1 : mounted s1 = true) by now rewrite H1.
  assert (Hg1 : gameState (component s1) = DRAGGING) by now rewrite H1.
  destruct (IH s1 Hm1 Hg1) as (I1 & I2 & I3 & I4 & I5 & I6).
  unfold run, moves in *.
  split; [exact I1 | ]. split; [exact I2 | ].
  rewrite I3, I4, I5, I6, H1.
  cbn [component physicsState setPhysics setDragCurrent dragStart
       dragCurrent ball velocity].
  repeat split. symmetry. apply last_cons.
Qed.

(** A press on an idle, mounted component followed by any pointer moves
    leaves the component dragging, with the press as start of the gesture
    and the last position moved to (the press itself, if none) as its
    current end; the moves before the last one leave no trace, and
    neither the ball nor its velocity changes.  So a press and a release
    with no move in between never throw. *)
Theorem drag_follows_pointer (s : System) (x0 y0 : Q)
    (ps : list DragPoint) :
  mounted s = true ->
  gameState (component s) = IDLE ->
  let s' := run s (PointerDown x0 y0 :: moves ps) in
  let p' := physicsState (component s') in
  (gameState (component s') = DRAGGING
   /\ dragStart p' = {| clientX := x0; clientY := y0 |}
   /\ dragCurrent p' = last ps {| clientX := x0; clientY := y0 |}
   /\ ball p' = ball (physicsState (component s))
   /\ velocity p' = velocity (physicsState (component s)))
  /\ gameState (component (run s [PointerDown x0 y0; PointerUp])) = IDLE.
Proof.
  intros Hm Hg. cbn zeta. cbn [run fold_left].
  set (s1 := step s (PointerDown x0 y0)).
  assert (H1 : s1 = {| component :=
                         setPhysics
                           (setDragCurrent {| clientX := x0; clientY := y0 |}
                              (setDragStart {| clientX := x0; clientY := y0 |}
                                 (physicsState (component s))))
                           (setGameState DRAGGING (component s));
                       mounted := true |}).
  { unfold s1, step, handlePointerDown. rewrite Hm, Hg. reflexivity. }
  assert (Hm1 : mounted s1 = true) by now rewrite H1.
  assert (Hg1 : gameState (component s1) = DRAGGING) by now rewrite H1.
  split.
  - destruct (moves_while_dragging ps s1 Hm1 Hg1)
      as (_ & I2 & I3 & I4 & I5 & I6).
    unfold run in *. split; [exact I2 | ].
    rewrite I3, I4, I5, I6, H1. repeat split.
  - rewrite (step_pointerUp s1 Hm1).
    destruct (handlePointerUp_dragging _ Hg1) as [[_ He] | [Hd _]].
    + rewrite He. reflexivity.
    + exfalso. rewrite H1 in Hd. unfold dragDy in Hd. cbn in Hd. lra.
Qed.

Lemma drag_follows_pointer_witness :
  dragCurrent
    (physicsState
       (component
          (run (step start tick)
             (PointerDown 100 500
              :: moves [ {| clientX := 90; clientY := 440 |};
                         {| clientX := 120; clientY := 380 |} ]))))
  = {| clientX := 120; clientY := 380 |}.
Proof.
  apply (drag_follows_pointer (step start tick) 100 500
           [ {| clientX := 90; clientY := 440 |};
             {| clientX := 120; clientY := 380 |} ] eq_refl eq_refl).
Defined.

(** ** A released ball *)

Lemma pointer_ignored (s : System) (e : Event) :
  released (gameState (component s)) = true ->
  isPointer e = true -> step s e = s.
Proof.
  intros Hrel He. destruct s as [c m]. cbn in Hrel.
  unfold step, handlePointerDown, handlePointerMove, handlePointerUp.
  cbn [component mounted].
  destruct e; try discriminate He; destruct m; try reflexivity;
    destruct (gameState c); try discriminate Hrel; reflexivity.
Qed.

Lemma frame_released (s : System) (e : Event) :
  released (gameState (component s)) = true ->
  isFrame e = true ->
  released (gameState (component (step s e))) = true.
Proof.
  intros Hrel He. destruct e; try discriminate He. unfold step.
  destruct (mounted s); [ | exact Hrel]. cbn [component].
  destruct (gameState (component s)) eqn:Hg; try discriminate Hrel.
  - destruct (frame_thrown wind innerWidth innerHeight _ Hg) as (_ & Fg & _).
    rewrite Fg. destruct (isMiss _); [ | destruct (inBin _)]; reflexivity.
  - destruct (frame_phase wind innerWidth innerHeight (component s))
      as (Fg & _); [rewrite Hg; discriminate | ]. now rewrite Fg, Hg.
  - destruct (frame_phase wind innerWidth innerHeight (component s))
      as (Fg & _); [rewrite Hg; discriminate | ]. now rewrite Fg, Hg.
Qed.

(** Once the ball is released (phase Thrown, Landed or Missed), pointer
    events have no effect until the reset: a run of iterations of
    [render] and pointer events ends in the state that the iterations
    alone lead to.  A throw cannot be steered or repeated in flight. *)
Theorem released_ball_ignores_pointer (s : System) (es : list Event) :
  released (gameState (component s)) = true ->
  forallb (fun e => isFrame e || isPointer e) es = true ->
  run s es = run s (filter isFrame es)
  /\ released (gameState (component (run s es))) = true.
Proof.
  revert s. induction es as [ | e es IH]; intros s Hrel Hes;
    [now split | ].
  cbn [forallb] in Hes. apply andb_true_iff in Hes as [He Hes].
  cbn [run fold_left filter].
  destruct (isFrame e) eqn:Hf.
  - cbn [fold_left]. apply IH; [ | exact Hes].
    apply frame_released; assumption.
  - cbn [orb] in He. rewrite (pointer_ignored s e Hrel He).
    apply IH; assumption.
Qed.

Lemma released_ball_ignores_pointer_witness :
  run (flight 1) [PointerDown 10 10; tick; PointerMove 10 300; PointerUp]
  = run (flight 1) [tick].
Proof.
  apply (released_ball_ignores_pointer (flight 1)
           [PointerDown 10 10; tick; PointerMove 10 300; PointerUp]);
    reflexivity.
Defined.

(** ** The reset timer *)

(** In every reachable state at most one timer is pending; one is pending
    exactly in the phases Landed and Missed, and it is a reset with a delay
    of 1000 milliseconds.  When it fires, after a miss as after a score,
    the phase is Idle, the ball has no velocity and no timer is pending;
    a timer event in any other phase finds none to fire and changes
    nothing. *)
Theorem one_reset_pending (s : System) :
  reachable s ->
  let c := component s in
  (List.length (timeouts c) <= 1)%nat
  /\ (timeouts c = [ {| callback := ResetBall; delay := 1000 |} ] <->
      gameState c = LANDED \/ gameState c = MISSED)
  /\ (timeouts c = [] <->
      gameState c <> LANDED /\ gameState c <> MISSED)
  /\ (gameState c = LANDED \/ gameState c = MISSED ->
      let c' := component (step s TimerFires) in
      gameState c' = IDLE /\ timeouts c' = []
      /\ velocity (physicsState c') = {| x := 0; y := 0; z := 0 |}
      /\ score c' = score c)
  /\ (gameState c <> LANDED /\ gameState c <> MISSED ->
      step s TimerFires = s).
Proof.
  intros Hr. cbn zeta.
  pose proof (inv_timeouts _ (reachable_Inv s Hr)) as Hq.
  destruct s as [c m]. cbn [component mounted] in *.
  unfold step, fireTimeout. cbn [component mounted]. rewrite Hq.
  destruct (gameState c) eqn:Hg; cbn;
    repeat split; try lia; try discriminate; try reflexivity;
    intuition (try discriminate; try congruence).
Qed.

Lemma one_reset_pending_witness :
  timeouts (component overthrow)
  = [ {| callback := ResetBall; delay := 1000 |} ]
  /\ gameState (component (step overthrow TimerFires)) = IDLE.
Proof.
  assert (Hr : reachable overthrow)
    by (unfold overthrow; eexists; reflexivity).
  destruct (one_reset_pending overthrow Hr) as (_ & H1 & _ & H2 & _).
  assert (Hg : gameState (component overthrow) = LANDED
               \/ gameState (component overthrow) = MISSED)
    by (right; vm_compute; reflexivity).
  split; [apply H1, Hg | apply H2, Hg].
Defined.

(** ** After the unmount *)




(** ** Flights *)

Lemma refresh_thrown (c : Component) (r : Refresh) :
  gameState c = THROWN ->
  physicsState (refresh c r) = integrate (fst r) (physicsState c).
Proof. intros Hg. apply (frame_thrown _ _ _ c Hg). Qed.

Lemma refreshes_over (c : Component) (rs : list Refresh) :
  gameState c <> THROWN ->
  gameState (refreshes c rs) = gameState c
  /\ score (refreshes c rs) = score c.
Proof.
  revert c. induction rs as [ | r rs IH]; intros c Hn; [now split | ].
  cbn [refreshes fold_left].
  destruct (frame_phase (fst r) (fst (snd r)) (snd (snd r)) c Hn)
    as (Fg & Fs & _).
  fold (refresh c r) in Fg, Fs.
  destruct (IH (refresh c r)) as [I1 I2]; [now rewrite Fg | ].
  unfold refreshes in *. now rewrite I1, I2, Fg, Fs.
Qed.

(** A flight still under way has been under way all along. *)
Lemma refreshes_thrown (c : Component) (r : Refresh) (rs : list Refresh) :
  gameState (refreshes c (r :: rs)) = THROWN ->
  gameState c = THROWN /\ gameState (refresh c r) = THROWN.
Proof.
  intros H. cbn [refreshes fold_left] in H.
  assert (H1 : gameState (refresh c r) = THROWN).
  { destruct (GameState_eq_dec (gameState (refresh c r)) THROWN)
      as [E | E]; [exact E | ].
    destruct (refreshes_over _ rs E) as [I _].
    unfold refreshes in I. congruence. }
  split; [ | exact H1].
  destruct (GameState_eq_dec (gameState c) THROWN) as [E | E]; [exact E | ].
  destruct (frame_phase (fst r) (fst (snd r)) (snd (snd r)) c E) as (Fg & _).
  fold (refresh c r) in Fg. congruence.
Qed.

Lemma inject_S (n : nat) :
  inject_Z (Z.of_nat (S n)) == inject_Z (Z.of_nat n) + 1.
Proof. rewrite Nat2Z.inj_succ, <- Z.add_1_r, inject_Z_plus. reflexivity. Qed.

Lemma Qpower_S (a : Q) (n : nat) :
  ~ a == 0 -> a ^ Z.of_nat (S n) == a * a ^ Z.of_nat n.
Proof.
  intros Ha. rewrite Nat2Z.inj_succ, <- Z.add_1_l, Qpower_plus by exact Ha.
  reflexivity.
Qed.

Lemma refreshes_parabola (c : Component) (rs : list Refresh) :
  gameState c = THROWN ->
  gameState (refreshes c rs) = THROWN ->
  let n := inject_Z (Z.of_nat (List.length rs)) in
  let p := physicsState c in
  let p' := physicsState (refreshes c rs) in
  y (velocity p') == y (velocity p) + n * 0.5
  /\ y (ball p') == y (ball p) + n * y (velocity p) + n * (n + 1) / 4
  /\ z (velocity p') == z (velocity p) * 0.98 ^ Z.of_nat (List.length rs).
Proof.
  revert c. induction rs as [ | r rs IH]; intros c Hg Hend.
  - cbn zeta. cbn [refreshes fold_left List.length].
    change (inject_Z (Z.of_nat 0)) with 0.
    change (0.98 ^ Z.of_nat 0) with 1.
    repeat split; field.
  - destruct (refreshes_thrown c r rs Hend) as [_ H1].
    cbn zeta. cbn [refreshes fold_left List.length].
    specialize (IH (refresh c r) H1 Hend). cbn zeta in IH.
    destruct IH as (Iv & Ib & Iz). unfold refreshes in *.
    rewrite Iv, Ib, Iz, (refresh_thrown c r Hg), inject_S, Qpower_S
      by discriminate.
    cbn [integrate velocity ball setBall setVelocity x y z].
    unfold GRAVITY, AIR_RESISTANCE. repeat split; field.
Qed.



Lemma refresh_released (c : Component) (r : Refresh) :
  released (gameState c) = true ->
  released (gameState (refresh c r)) = true
  /\ (physicsState (refresh c r) = integrate (fst r) (physicsState c)
      /\ gameState c = THROWN
      \/ physicsState (refresh c r) = physicsState c
         /\ gameState c <> THROWN
         /\ gameState (refresh c r) = gameState c).
Proof.
  intros Hrel. unfold refresh.
  destruct (gameState c) eqn:Hg; try discriminate Hrel.
  - destruct (frame_thrown (fst r) (fst (snd r)) (snd (snd r)) c Hg)
      as (Fp & Fg & _).
    split; [ | left; now split].
    rewrite Fg. destruct (isMiss _); [ | destruct (inBin _)]; reflexivity.
  - destruct (frame_terminal (fst r) (fst (snd r)) (snd (snd r)) c)
      as (Fp & Fg & _); [left; exact Hg | ].
    rewrite Fg, Hg. split; [reflexivity | right].
    split; [exact Fp | split; [discriminate | reflexivity]].
  - destruct (frame_terminal (fst r) (fst (snd r)) (snd (snd r)) c)
      as (Fp & Fg & _); [right; exact Hg | ].
    rewrite Fg, Hg. split; [reflexivity | right].
    split; [exact Fp | split; [discriminate | reflexivity]].
Qed.

Lemma refreshes_depth (c : Component) (rs : list Refresh) :
  released (gameState c) = true ->
  0 < z (velocity (physicsState c)) ->
  let p := physicsState c in
  let p' := physicsState (refreshes c rs) in
  z (ball p') + 49 * z (velocity p') == z (ball p) + 49 * z (velocity p)
  /\ 0 < z (velocity p')
  /\ z (ball p') < z (ball p) + 49 * z (velocity p).
Proof.
  revert c. induction rs as [ | r rs IH]; intros c Hrel Hv.
  - cbn. split; [reflexivity | split; [exact Hv | lra]].
  - cbn zeta. cbn [refreshes fold_left].
    destruct (refresh_released c r Hrel) as (Hrel1 & Hp).
    assert (H1 : z (ball (physicsState (refresh c r)))
                 + 49 * z (velocity (physicsState (refresh c r)))
                 == z (ball (physicsState c))
                    + 49 * z (velocity (physicsState c))
                 /\ 0 < z (velocity (physicsState (refresh c r)))).
    { destruct Hp as [[Hp _] | [Hp _]]; rewrite Hp;
        [ | split; [reflexivity | exact Hv]].
      cbn [integrate velocity ball setBall setVelocity x y z].
      unfold AIR_RESISTANCE. split; [ring | lra]. }
    destruct H1 as [H1 H2].
    destruct (IH (refresh c r) Hrel1 H2) as (I1 & I2 & I3).
    unfold refreshes in *. cbn zeta in *.
    split; [rewrite I1; exact H1 | ]. split; [exact I2 | lra].
Qed.



(** ** A resting ball *)

Lemma step_atRest (s : System) (e : Event) :
  atRest (component s) -> atRest (component (step s e)).
Proof.
  unfold atRest, step. intros H.
  destruct e; destruct (mounted s); cbn [component]; try exact H.
  - unfold handlePointerDown.
    destruct (gameState (component s)) eqn:Hg; try (rewrite Hg; exact H).
    intros _. apply H. now left.
  - unfold handlePointerMove.
    destruct (gameState (component s)) eqn:Hg; try (rewrite Hg; exact H).
    intros _. apply H. now right.
  - unfold handlePointerUp.
    destruct (gameState (component s)) eqn:Hg; try (rewrite Hg; exact H).
    destruct (Num.ltb _ 50); cbn.
    + intros _. apply H. now right.
    + intros [E | E]; discriminate E.
  - unfold handlePointerUp.
    destruct (gameState (component s)) eqn:Hg; try (rewrite Hg; exact H).
    destruct (Num.ltb _ 50); cbn.
    + intros _. apply H. now right.
    + intros [E | E]; discriminate E.
  - destruct (gameState (component s)) eqn:Hg.
    + destruct (frame_at_rest wind innerWidth innerHeight (component s))
        as (Hb & _); [now left | ]. intros _. rewrite Hb. now split.
    + destruct (frame_at_rest wind innerWidth innerHeight (component s))
        as (Hb & _); [now right | ]. intros _. rewrite Hb. now split.
    + destruct (frame_thrown wind innerWidth innerHeight _ Hg)
        as (_ & Fg & _).
      rewrite Fg. destruct (isMiss _); [ | destruct (inBin _)];
        intros [E | E]; discriminate E.
    + destruct (frame_terminal wind innerWidth innerHeight (component s))
        as (_ & Fg & _); [now left | ].
      rewrite Fg, Hg. intros [E | E]; discriminate E.
    + destruct (frame_terminal wind innerWidth innerHeight (component s))
        as (_ & Fg & _); [now right | ].
      rewrite Fg, Hg. intros [E | E]; discriminate E.
  - unfold fireTimeout.
    destruct (timeouts (component s)) as [ | [[] ?] ?]; [exact H | ].
    intros _. now split.
  - unfold fireTimeout.
    destruct (timeouts (component s)) as [ | [[] ?] ?]; [exact H | ].
    intros _. now split.
Qed.

Lemma reachable_atRest (s : System) : reachable s -> atRest (component s).
Proof.
  intros [es <-]. unfold run.
  induction es as [ | e es IH] using rev_ind.
  - intros _. now split.
  - rewrite fold_left_app. apply step_atRest, IH.
Qed.

(** ** Throws that cannot score, flights that end *)

Lemma short_flight (k : Z) (c : Component) (rs : list Refresh) :
  (gameState c = THROWN \/ gameState c = MISSED) ->
  0 < z (velocity (physicsState c)) ->
  z (ball (physicsState c)) + 49 * z (velocity (physicsState c)) < 600 ->
  score c = k ->
  (gameState (refreshes c rs) = THROWN
   \/ gameState (refreshes c rs) = MISSED)
  /\ score (refreshes c rs) = k.
Proof.
  revert c. induction rs as [ | r rs IH]; intros c Hg Hv Hz Hs;
    [now split | ].
  cbn [refreshes fold_left].
  assert (Hrel : released (gameState c) = true)
    by (destruct Hg as [Hg | Hg]; now rewrite Hg).
  destruct (refreshes_depth c [r] Hrel Hv) as (Hd & Hv' & Hlt).
  cbn [refreshes fold_left] in Hd, Hv', Hlt.
  apply IH; clear IH; [ | exact Hv' | rewrite Hd; exact Hz | ].
  - destruct Hg as [Hg | Hg].
    + destruct (frame_thrown (fst r) (fst (snd r)) (snd (snd r)) c Hg)
        as (_ & Fg & _).
      fold (refresh c r) in Fg. rewrite Fg.
      destruct (isMiss _); [now right | ].
      destruct (inBin (ball (physicsState (refresh c r)))) eqn:Hin;
        [ | now left].
      exfalso. apply inBin_iff in Hin. destruct Hin as [[Hlo _] _].
      unfold BIN_Z in Hlo. lra.
    + destruct (frame_terminal (fst r) (fst (snd r)) (snd (snd r)) c)
        as (_ & Fg & _); [now right | ].
      fold (refresh c r) in Fg. rewrite Fg. now right.
  - destruct Hg as [Hg | Hg].
    + destruct (frame_thrown (fst r) (fst (snd r)) (snd (snd r)) c Hg)
        as (_ & _ & Fs & _).
      fold (refresh c r) in Fs. rewrite Fs.
      destruct (inBin (ball (physicsState (refresh c r)))) eqn:Hin;
        [ | exact Hs].
      exfalso. apply inBin_iff in Hin. destruct Hin as [[Hlo _] _].
      unfold BIN_Z in Hlo. lra.
    + destruct (frame_terminal (fst r) (fst (snd r)) (snd (snd r)) c)
        as (_ & _ & Fs & _); [now right | ].
      fold (refresh c r) in Fs. now rewrite Fs.
Qed.

(** A throw from a drag that goes up by 50 to 54 never scores: the ball
    starts at depth 0 with a forward velocity of at most 12.15, so it
    stays short of depth 595.35 and of the bin at 600.  Whatever the wind
    and however many iterations follow, the phase is Thrown or Missed and
    the score is the one before the throw. *)
Theorem weak_throw_never_scores (s : System) (rs : list Refresh) :
  reachable s ->
  mounted s = true ->
  gameState (component s) = DRAGGING ->
  -54 <= dragDy (physicsState (component s)) <= -50 ->
  let c' := refreshes (component (step s PointerUp)) rs in
  gameState (component (step s PointerUp)) = THROWN
  /\ (gameState c' = THROWN \/ gameState c' = MISSED)
  /\ score c' = score (component s)
  /\ z (ball (physicsState c')) < 595.35.
Proof.
  intros Hr Hm Hg [Hlo Hhi]. cbn zeta.
  destruct (reachable_atRest s Hr (or_intror Hg)) as [_ Hz0].
  rewrite (step_pointerUp s Hm).
  destruct (handlePointerUp_dragging _ Hg) as [[Hd _] | [_ He]]; [lra | ].
  set (c1 := handlePointerUp (component s)) in *.
  set (dy := dragDy (physicsState (component s))) in *.
  destruct (throwPower_cases dy) as [(_ & _ & Ha) | (H & _)]; [ | lra].
  assert (Hg1 : gameState c1 = THROWN) by now rewrite He.
  assert (Hb1 : z (ball (physicsState c1)) = 0) by now rewrite He.
  assert (Hv1 : z (velocity (physicsState c1))
                == Qabs (Qmin dy 0) * THROW_SCALE * 1.5)
    by now rewrite He.
  assert (Hs1 : score c1 = score (component s)) by now rewrite He.
  assert (Hpos : 0 < z (velocity (physicsState c1)))
    by (rewrite Hv1, Ha; unfold THROW_SCALE; lra).
  assert (Hsum : z (ball (physicsState c1))
                 + 49 * z (velocity (physicsState c1)) <= 595.35)
    by (rewrite Hb1, Hv1, Ha; unfold THROW_SCALE; lra).
  split; [exact Hg1 | ].
  destruct (short_flight (score (component s)) c1 rs (or_introl Hg1) Hpos)
    as [Hph Hsc]; [lra | exact Hs1 | ].
  split; [exact Hph | ]. split; [exact Hsc | ].
  assert (Hrel : released (gameState c1) = true) by now rewrite Hg1.
  destruct (refreshes_depth c1 rs Hrel Hpos) as (_ & _ & Hd). lra.
Qed.

Lemma weak_throw_never_scores_witness :
  let s := run start [tick; PointerDown 100 500; PointerMove 130 448] in
  score (refreshes (component (step s PointerUp))
           (repeat (calm, (800, 600)%Z) 40))
  = score (component s).
Proof.
  set (es := [tick; PointerDown 100 500; PointerMove 130 448]).
  cbn zeta.
  assert (Hd : -54 <= dragDy (physicsState (component (run start es)))
               <= -50)
    by (split; vm_compute; discriminate).
  apply (weak_throw_never_scores (run start es)
           (repeat (calm, (800, 600)%Z) 40)
           (ex_intro _ es eq_refl) eq_refl eq_refl Hd).
Defined.

Lemma refreshes_released (c : Component) (rs : list Refresh) :
  released (gameState c) = true ->
  released (gameState (refreshes c rs)) = true.
Proof.
  revert c. induction rs as [ | r rs IH]; intros c Hrel; [exact Hrel | ].
  cbn [refreshes fold_left]. apply IH, refresh_released, Hrel.
Qed.

(** The last iteration of a flight that is still under way did not find
    the ball below the floor line. *)
Lemma still_above_floor (c : Component) (rs : list Refresh) :
  rs <> [] ->
  gameState (refreshes c rs) = THROWN ->
  y (ball (physicsState (refreshes c rs))) <= 500.
Proof.
  intros Hne Hend.
  destruct (exists_last Hne) as (rs' & r & ->).
  unfold refreshes in *. rewrite fold_left_app in *. cbn [fold_left] in *.
  set (c' := fold_left refresh rs' c) in *.
  assert (Hg : gameState c' = THROWN).
  { destruct (GameState_eq_dec (gameState c') THROWN) as [E | E];
      [exact E | ].
    destruct (frame_phase (fst r) (fst (snd r)) (snd (snd r)) c' E)
      as (Fg & _).
    fold (refresh c' r) in Fg. congruence. }
  destruct (frame_thrown (fst r) (fst (snd r)) (snd (snd r)) c' Hg)
    as (_ & Fg & _).
  fold (refresh c' r) in Fg. rewrite Hend in Fg.
  apply Qnot_lt_le. intros Hy.
  rewrite (proj2 (isMiss_iff _) (or_introl Hy)) in Fg. discriminate Fg.
Qed.

(** Every flight ends: gravity adds 0.5 to the vertical velocity in each
    iteration, so after [flightBound c] iterations, a number computed from
    the height and the vertical velocity of the ball alone, the ball has
    scored or has been declared missed, whatever the wind and the window
    sizes were. *)
Theorem every_flight_ends (c : Component) (rs : list Refresh) :
  gameState c = THROWN ->
  (flightBound c <= List.length rs)%nat ->
  gameState (refreshes c rs) = LANDED
  \/ gameState (refreshes c rs) = MISSED.
Proof.
  intros Hg Hn.
  assert (Hrel : released (gameState (refreshes c rs)) = true)
    by (apply refreshes_released; now rewrite Hg).
  destruct (gameState (refreshes c rs)) eqn:Hend; try discriminate Hrel;
    [exfalso | now left | now right].
  set (vy := y (velocity (physicsState c))) in *.
  set (y0 := y (ball (physicsState c))) in *.
  set (m := inject_Z (Z.of_nat (List.length rs))).
  assert (Hm : 4 * Qabs vy + 4 + Qabs (500 - y0) <= m).
  { unfold flightBound in Hn. cbn zeta in Hn. fold vy y0 in Hn.
    set (q := 4 * Qabs vy + 4 + Qabs (500 - y0)) in *.
    apply Qle_trans with (inject_Z (Qceiling q)); [apply Qle_ceiling | ].
    unfold m. rewrite <- Zle_Qle. clear - Hn. clearbody q. lia. }
  pose proof (Qabs_nonneg vy) as Ha0.
  pose proof (Qabs_nonneg (500 - y0)) as Hd0.
  assert (Hne : rs <> []).
  { intros E. unfold m in Hm. rewrite E in Hm.
    change (inject_Z (Z.of_nat (@List.length Refresh []))) with 0 in Hm.
    lra. }
  pose proof (still_above_floor c rs Hne Hend) as Hy.
  destruct (refreshes_parabola c rs Hg Hend) as (_ & Hb & _).
  fold vy y0 m in Hb. rewrite Hb in Hy.
  pose proof (Qle_Qabs (- vy)) as Ha. rewrite Qabs_opp in Ha.
  pose proof (Qle_Qabs (500 - y0)) as Hd.
  assert (P1 : 0 <= m * (vy + Qabs vy))
    by (apply Qmult_le_0_compat; lra).
  assert (P2 : 0 <= m * (m - 4 * Qabs vy - 4 - Qabs (500 - y0)))
    by (apply Qmult_le_0_compat; lra).
  assert (P3 : 0 <= m * Qabs (500 - y0))
    by (apply Qmult_le_0_compat; lra).
  assert (E1 : m * (vy + Qabs vy) == m * vy + m * Qabs vy) by ring.
  assert (E2 : m * (m - 4 * Qabs vy - 4 - Qabs (500 - y0))
               == m * m - 4 * (m * Qabs vy) - 4 * m - m * Qabs (500 - y0))
    by ring.
  assert (E3 : m * (m + 1) / 4 == (1 # 4) * (m * m) + (1 # 4) * m)
    by field.
  rewrite E1 in P1. rewrite E2 in P2. rewrite E3 in Hy.
  revert P1 P2 P3 Hy Hm Ha Hd Ha0 Hd0.
  generalize (m * vy) (m * Qabs vy) (m * m) (m * Qabs (500 - y0))
    (Qabs vy) (Qabs (500 - y0)).
  intros; lra.
Qed.

Lemma every_flight_ends_witness :
  gameState (refreshes beforeBin (repeat (calm, (300, 150)%Z) 364)) = LANDED
  \/ gameState (refreshes beforeBin (repeat (calm, (300, 150)%Z) 364))
     = MISSED.
Proof.
  apply (every_flight_ends beforeBin (repeat (calm, (300, 150)%Z) 364)
           eq_refl).
  rewrite repeat_length. apply Nat.leb_le. vm_compute. reflexivity.
Defined.

(** ** Sideways drift *)

Lemma integrate_drift (wind : Wind) (p : PhysicsState) :
  Qabs (speed wind) <= 5 ->
  Qabs (x (velocity p)) <= 12.25 ->
  Qabs (x (velocity (integrate wind p))) <= 12.25.
Proof.
  intros Hw Hv. apply Qabs_Qle_condition in Hw, Hv.
  apply Qabs_Qle_condition.
  cbn [integrate velocity setBall setVelocity x].
  unfold WIND_FACTOR, AIR_RESISTANCE. lra.
Qed.

(** With winds of speed at most 5 in either direction, a released ball
    whose sideways speed is at most 12.25 keeps a sideways speed of at
    most 12.25 through all iterations: 12.25 is where the push of the
    strongest wind and the air resistance balance. *)
Theorem sideways_speed_is_bounded (c : Component) (rs : list Refresh) :
  released (gameState c) = true ->
  Forall (fun r => Qabs (speed (fst r)) <= 5) rs ->
  Qabs (x (velocity (physicsState c))) <= 12.25 ->
  Qabs (x (velocity (physicsState (refreshes c rs)))) <= 12.25.
Proof.
  revert c. induction rs as [ | r rs IH]; intros c Hrel Hw Hv; [exact Hv | ].
  cbn [refreshes fold_left]. inversion Hw as [ | r' rs' Hr Hrs]; subst.
  destruct (refresh_released c r Hrel) as (Hrel1 & Hp).
  apply IH; [exact Hrel1 | exact Hrs | ].
  destruct Hp as [[Hp _] | [Hp _]]; rewrite Hp;
    [apply integrate_drift; assumption | exact Hv].
Qed.

Lemma sideways_speed_is_bounded_witness :
  Qabs (x (velocity (physicsState
             (refreshes (component (flight 0))
                [({| speed := 5; label := "Windy" |}, (800, 600)%Z);
                 ({| speed := -4; label := "Windy" |}, (800, 600)%Z)]))))
  <= 12.25.
Proof.
  apply (sideways_speed_is_bounded (component (flight 0))
           [({| speed := 5; label := "Windy" |}, (800, 600)%Z);
            ({| speed := -4; label := "Windy" |}, (800, 600)%Z)] eq_refl).
  - repeat constructor; vm_compute; discriminate.
  - vm_compute. discriminate.
Defined.

(** ** Perspective *)



(** Every iteration draws the bin at the same place whatever the state of
    the game: horizontally in the middle of the window, with scale 4/7
    and an opening of radius 240/7; and it draws the drag line exactly
    when it started in phase Dragging, from the start of the gesture to
    its current end. *)
Theorem bin_is_drawn_in_the_middle (wind : Wind) (iw ih : Z)
    (c : Component) :
  let sc := scene wind iw ih c in
  sx (projBin sc) == inject_Z iw / 2
  /\ scale (projBin sc) == (4 # 7)
  /\ scaledBinRadius sc == (240 # 7)
  /\ sy (projBin sc) == inject_Z ih / 2 + 100 + (600 # 7)
  /\ (gameState c = DRAGGING ->
      dragLine sc
      = Some (dragStart (physicsState c), dragCurrent (physicsState c)))
  /\ (gameState c <> DRAGGING -> dragLine sc = None).
Proof.
  cbn zeta.
  destruct (proj1 (step_canvas
                     {| component := c; mounted := true |}
                     (Frame wind iw ih)) wind iw ih) as (_ & Hc).
  cbn [component] in Hc. unfold frame, render in Hc. cbn [fst] in Hc.
  change (canvas (setAnimationFrame true ?c)) with (canvas c) in Hc.
  unfold scene, render. cbn [snd]. unfold draw.
  cbn [projBin scaledBinRadius dragLine]. rewrite Hc.
  cbn [width height project sx sy scale x y z].
  unfold PERSPECTIVE, BIN_Z, BIN_RADIUS.
  split; [field | ]. split; [reflexivity | ]. split; [reflexivity | ].
  split; [field | ].
  split.
  - intros Hg. rewrite Hg.
    assert (Hn : DRAGGING <> IDLE) by discriminate.
    destruct (resize_not_idle DRAGGING iw ih c Hn) as (_ & _ & Rp & _).
    unfold physics. cbn [physicsState setPhysics setBall dragStart
                         dragCurrent]. now rewrite Rp.
  - intros Hg. destruct (gameState c); try reflexivity. now elim Hg.
Qed.

(** * The wind, the services and the panels *)

(** ** The wind of [App] *)

(** For a random number in [[0, 1)] the wind [updateWind] makes has a
    speed in [[-5, 5)], and its label tells the strength: "Calm" exactly
    below 1, "Breezy" exactly from 1 to below 3, "Windy" exactly from 3
    on. *)
Theorem updateWind_range (random : Q) :
  0 <= random < 1 ->
  let w := updateWind random in
  (-5 <= speed w /\ speed w < 5)
  /\ Qabs (speed w) <= 5
  /\ (label w = "Calm"%string <-> Qabs (speed w) < 1)
  /\ (label w = "Breezy"%string <-> 1 <= Qabs (speed w) < 3)
  /\ (label w = "Windy"%string <-> 3 <= Qabs (speed w)).
Proof.
  intros [H0 H1]. cbn zeta. unfold updateWind. cbn [speed label].
  set (v := random * 10 - 5).
  assert (Hv : -5 <= v /\ v < 5) by (unfold v; split; lra).
  split; [exact Hv | ].
  split; [apply Qabs_Qle_condition; lra | ].
  destruct (Num.ltb (Qabs v) 1) eqn:E1.
  - pose proof (proj1 (ltb_iff _ _) E1) as L1.
    repeat split; intros; try discriminate; try assumption; lra.
  - pose proof (proj1 (ltb_false_iff _ _) E1) as L1.
    destruct (Num.ltb (Qabs v) 3) eqn:E3.
    + pose proof (proj1 (ltb_iff _ _) E3) as L3.
      repeat split; intros; try discriminate; try assumption; lra.
    + pose proof (proj1 (ltb_false_iff _ _) E3) as L3.
      repeat split; intros; try discriminate; try assumption; lra.
Qed.

Lemma updateWind_range_witness :
  label (updateWind 0.62) = "Breezy"%string.
Proof.
  assert (H : 0 <= 0.62 < 1)
    by (split; vm_compute; (discriminate || reflexivity)).
  destruct (updateWind_range 0.62 H) as (_ & _ & _ & Hb & _).
  apply Hb. split; vm_compute; (discriminate || reflexivity).
Defined.

(** The score [App] displays, which is the last one the canvas reported,
    or 0 before any report, is in every reachable state the score the
    canvas counts. *)
Theorem displayed_score_is_score (s : System) :
  reachable s -> appScore (component s) = score (component s).
Proof.
  intros Hr. destruct (reports_count_down_aux s Hr) as [H0 Hc].
  unfold appScore. rewrite Hc.
  destruct (Z.to_nat (score (component s))) as [ | n] eqn:En.
  - cbn. lia.
  - rewrite countdown_S. cbn [hd]. rewrite <- En. lia.
Qed.

Lemma displayed_score_is_score_witness :
  appScore (component (run (flight 33) [tick]))
  = score (component (run (flight 33) [tick])).
Proof.
  apply (displayed_score_is_score (run (flight 33) [tick])).
  unfold flight, run. eexists. apply fold_left_app.
Defined.

(** ** Blank strings *)

Lemma trimStart_nil (s : JS.str) :
  JS.trimStart s = [] <-> forallb JS.isWhiteSpace s = true.
Proof.
  induction s as [ | u s IH]; [now split | ].
  cbn [JS.trimStart forallb].
  destruct (JS.isWhiteSpace u); cbn [andb]; [exact IH | ].
  split; discriminate.
Qed.

Lemma trimStart_head (s : JS.str) (u : N) (r : JS.str) :
  JS.trimStart s = u :: r -> JS.isWhiteSpace u = false.
Proof.
  induction s as [ | a s IH]; [discriminate | ].
  cbn [JS.trimStart]. destruct (JS.isWhiteSpace a) eqn:Ea; [exact IH | ].
  intros H. injection H as -> _. exact Ea.
Qed.

(** [trim] leaves nothing exactly of the strings made of white space. *)
Lemma trim_blank (s : JS.str) :
  JS.truthy (JS.trim s) = false <-> forallb JS.isWhiteSpace s = true.
Proof.
  rewrite <- trimStart_nil. unfold JS.trim, JS.trimEnd.
  destruct (JS.trimStart s) as [ | u r] eqn:Hs; [now split | ].
  split; [ | discriminate]. intros H. exfalso.
  pose proof (trimStart_head s u r Hs) as Hu.
  destruct (JS.trimStart (rev (u :: r))) as [ | a t] eqn:Ht.
  - apply trimStart_nil in Ht. rewrite forallb_forall in Ht.
    specialize (Ht u). rewrite <- in_rev in Ht.
    rewrite Ht in Hu by now left. discriminate Hu.
  - cbn [rev] in H. destruct (rev t); discriminate H.
Qed.

(** ** The services *)

Import GeminiService.

Lemma firstImage_spec (ps : list Part) :
  match firstImage ps with
  | None => Forall (fun p => inlineData p = None) ps
  | Some u =>
      exists before p after i,
        ps = before ++ p :: after
        /\ Forall (fun p => inlineData p = None) before
        /\ inlineData p = Some i
        /\ u = JS.lit "data:image/png;base64," ++ interpolate (data i)
  end.
Proof.
  induction ps as [ | p ps IH]; [constructor | ].
  cbn [firstImage]. destruct (inlineData p) as [i | ] eqn:Hp.
  - exists [], p, ps, i. repeat split; [constructor | exact Hp].
  - destruct (firstImage ps) as [u | ].
    + destruct IH as (before & q & after & i & -> & Hb & Hq & Hu).
      exists (p :: before), q, after, i.
      repeat split; try assumption. constructor; assumption.
    + constructor; assumption.
Qed.

(** [generateGameBackground] resolves to the data URL of the first part of
    the first candidate that carries inline data: the fixed prefix
    [data:image/png;base64,] followed by the data of that part.  It
    resolves to [null] exactly when no part carries inline data, which
    includes a response without candidates, content or parts.  It rejects
    exactly when the service does, with the same error. *)
Theorem background_is_first_image {E : Type}
    (response : JS.Promise GenerateContentResponse E) :
  match response with
  | JS.Rejected e => generateGameBackground response = JS.Rejected e
  | JS.Resolved r =>
      (generateGameBackground response = JS.Resolved None
       /\ Forall (fun p => inlineData p = None) (firstParts r))
      \/ (exists before p after i,
            firstParts r = before ++ p :: after
            /\ Forall (fun p => inlineData p = None) before
            /\ inlineData p = Some i
            /\ generateGameBackground response
               = JS.Resolved
                   (Some (JS.lit "data:image/png;base64,"
                          ++ interpolate (data i))))
  end.
Proof.
  destruct response as [r | e]; [ | reflexivity].
  cbn [generateGameBackground].
  pose proof (firstImage_spec (firstParts r)) as H.
  destruct (firstImage (firstParts r)) as [u | ].
  - right. destruct H as (before & p & after & i & H1 & H2 & H3 & ->).
    exists before, p, after, i. repeat split; assumption.
  - left. split; [reflexivity | exact H].
Qed.

Lemma chat_reply_is_never_empty_aux {E : Type}
    (result : JS.Promise GenerateContentResponse E) :
  JS.truthy (sendChatMessage result) = true
  /\ (forall r t,
        result = JS.Resolved r -> responseText r = Some t ->
        JS.truthy t = true -> sendChatMessage result = t)
  /\ (forall r,
        result = JS.Resolved r ->
        responseText r = None \/ responseText r = Some [] ->
        sendChatMessage result = JS.lit "I'm speechless!")
  /\ (forall e,
        result = JS.Rejected e ->
        sendChatMessage result
        = JS.lit "Oops, my brain circuit tripped. Try again?").
Proof.
  split; [ | split; [ | split]].
  - destruct result as [r | e]; [ | reflexivity].
    cbn [sendChatMessage]. unfold orSpeechless.
    destruct (responseText r) as [t | ]; [ | reflexivity].
    destruct (JS.truthy t) eqn:Ht; [exact Ht | reflexivity].
  - intros r t -> Hr Ht. cbn [sendChatMessage]. unfold orSpeechless.
    now rewrite Hr, Ht.
  - intros r -> [Hr | Hr]; cbn [sendChatMessage]; unfold orSpeechless;
      now rewrite Hr.
  - intros e ->. reflexivity.
Qed.

(** Whatever the service does, [sendChatMessage] resolves, and never to
    the empty string: to the text of the response if it has a non-empty
    one, to a stand-in if the text is missing or empty, to an apology if
    the call fails. *)
Theorem chat_reply_is_never_empty {E : Type}
    (result : JS.Promise GenerateContentResponse E) :
  JS.truthy (sendChatMessage result) = true
  /\ (forall r t,
        result = JS.Resolved r -> responseText r = Some t ->
        JS.truthy t = true -> sendChatMessage result = t)
  /\ (forall r,
        result = JS.Resolved r ->
        responseText r = None \/ responseText r = Some [] ->
        sendChatMessage result = JS.lit "I'm speechless!")
  /\ (forall e,
        result = JS.Rejected e ->
        sendChatMessage result
        = JS.lit "Oops, my brain circuit tripped. Try again?").
Proof. exact (chat_reply_is_never_empty_aux result). Qed.

(** ** The scene generator *)

Lemma firstImage_truthy (ps : list Part) (u : JS.str) :
  firstImage ps = Some u -> JS.truthy u = true.
Proof.
  intros H. pose proof (firstImage_spec ps) as S. rewrite H in S.
  destruct S as (_ & _ & _ & i & _ & _ & _ & ->). reflexivity.
Qed.

(** A run of [handleGenerate] on a prompt that is not blank always ends
    with [isGenerating] off and the prompt and the size kept, in one of
    three ways.  If the response holds an image, its data URL goes to
    [onBackgroundGenerated], the panel is closed once and no error is
    shown.  If the response holds no image, or if the call fails, an
    error is shown, one message for each case, and neither callback is
    called. *)
Theorem generate_outcomes {E : Type}
    (response : JS.Promise GenerateContentResponse E)
    (st : BackgroundGenerator.State) :
  JS.truthy (JS.trim (BackgroundGenerator.prompt st)) = true ->
  let st' := BackgroundGenerator.generate response st in
  BackgroundGenerator.isGenerating st' = false
  /\ BackgroundGenerator.prompt st' = BackgroundGenerator.prompt st
  /\ BackgroundGenerator.size st' = BackgroundGenerator.size st
  /\ match generateGameBackground response with
     | JS.Resolved (Some url) =>
         BackgroundGenerator.error st' = None
         /\ BackgroundGenerator.generated st'
            = url :: BackgroundGenerator.generated st
         /\ BackgroundGenerator.closed st'
            = S (BackgroundGenerator.closed st)
     | JS.Resolved None =>
         BackgroundGenerator.error st'
         = Some (JS.lit "Could not generate image. Try a different prompt.")
         /\ BackgroundGenerator.generated st'
            = BackgroundGenerator.generated st
         /\ BackgroundGenerator.closed st' = BackgroundGenerator.closed st
     | JS.Rejected _ =>
         BackgroundGenerator.error st'
         = Some (JS.lit "API Error: Failed to generate image.")
         /\ BackgroundGenerator.generated st'
            = BackgroundGenerator.generated st
         /\ BackgroundGenerator.closed st' = BackgroundGenerator.closed st
     end.
Proof.
  intros Hp. cbn zeta.
  unfold BackgroundGenerator.generate, BackgroundGenerator.handleGenerate.
  rewrite Hp. cbn [negb].
  destruct response as [r | e]; cbn [generateGameBackground];
    [ | repeat split].
  destruct (firstImage (firstParts r)) as [u | ] eqn:Hu; [ | repeat split].
  unfold BackgroundGenerator.resume.
  rewrite (firstImage_truthy _ _ Hu). repeat split.
Qed.

Lemma generate_outcomes_witness :
  BackgroundGenerator.generated
    (BackgroundGenerator.generate sampleResponse samplePanel)
  = [JS.lit "data:image/png;base64,iVBOR"].
Proof.
  pose proof (generate_outcomes sampleResponse samplePanel eq_refl) as H.
  cbn zeta in H. destruct H as (_ & _ & _ & H).
  change (generateGameBackground sampleResponse)
    with (JS.Resolved (E := unit)
            (Some (JS.lit "data:image/png;base64,iVBOR"))) in H.
  cbv beta iota in H. destruct H as (_ & H & _). exact H.
Defined.

(** [handleGenerate] makes no call exactly when the prompt is blank, that
    is empty or made of white space only; then it changes nothing: the
    state, an error shown before included, stays as it is and no callback
    is called. *)
Theorem blank_prompt_is_ignored (st : BackgroundGenerator.State) :
  (snd (BackgroundGenerator.handleGenerate st) = None <->
   forallb JS.isWhiteSpace (BackgroundGenerator.prompt st) = true)
  /\ (forallb JS.isWhiteSpace (BackgroundGenerator.prompt st) = true ->
      BackgroundGenerator.handleGenerate st = (st, None)
      /\ forall (E : Type) (response : JS.Promise GenerateContentResponse E),
           BackgroundGenerator.generate response st = st).
Proof.
  rewrite <- trim_blank.
  unfold BackgroundGenerator.generate, BackgroundGenerator.handleGenerate.
  destruct (JS.truthy (JS.trim (BackgroundGenerator.prompt st)));
    cbn [negb snd].
  - split; [split; discriminate | discriminate].
  - split; [split; reflexivity | ].
    intros _. split; [reflexivity | intros; reflexivity].
Qed.

(** ** The chat panel *)

Lemma nextRole_app (ms : list ChatMessage) (m : ChatMessage)
    (expected : Role) :
  ChatInterface.alternates expected (ms ++ [m])
  = ChatInterface.alternates expected ms
    && match ChatInterface.nextRole expected ms, role m with
       | model, model | user, user => true
       | _, _ => false
       end
  /\ ChatInterface.nextRole expected (ms ++ [m])
     = match ChatInterface.nextRole expected ms with
       | user => model
       | model => user
       end.
Proof.
  revert expected. induction ms as [ | a ms IH]; intros expected.
  - cbn. destruct expected, (role m); split; reflexivity.
  - cbn [app ChatInterface.alternates ChatInterface.nextRole].
    destruct expected, (role a); try (split; [reflexivity | apply IH]);
      apply IH.
Qed.

Lemma chat_step_Inv {E : Type} (st : ChatInterface.State)
    (e : ChatInterface.Event E) :
  chatInv st -> chatInv (ChatInterface.step st e).
Proof.
  intros (Ha & Hn & Ht & now0 & rest & Hm).
  destruct e as [v | now | now result]; cbn [ChatInterface.step].
  - repeat split; try assumption. now exists now0, rest.
  - unfold ChatInterface.handleSend.
    destruct (JS.truthy (JS.trim (ChatInterface.input st))) eqn:Hi;
      cbn [negb orb fst];
      [ | repeat split; try assumption; now exists now0, rest].
    destruct (ChatInterface.isLoading st) eqn:Hl; cbn [fst];
      [repeat split; try assumption; [now rewrite Hl | now exists now0, rest]
      | ].
    set (m := {| role := user; text := ChatInterface.input st;
                 timestamp := now |}).
    destruct (nextRole_app (ChatInterface.messages st) m model) as [A N].
    unfold chatInv. cbn [ChatInterface.messages ChatInterface.isLoading].
    rewrite A, N, Ha, Hn. repeat split.
    + apply Forall_app. split; [exact Ht | ].
      constructor; [ | constructor]. cbn [text m].
      destruct (ChatInterface.input st); [discriminate Hi | reflexivity].
    + exists now0, (rest ++ [m]). now rewrite Hm.
  - destruct (ChatInterface.isLoading st) eqn:Hl;
      [ | repeat split; try assumption;
          [now rewrite Hl | now exists now0, rest]].
    unfold ChatInterface.resume.
    set (m := {| role := model; text := sendChatMessage result;
                 timestamp := now |}).
    destruct (nextRole_app (ChatInterface.messages st) m model) as [A N].
    unfold chatInv. cbn [ChatInterface.messages ChatInterface.isLoading].
    rewrite A, N, Ha, Hn. repeat split.
    + apply Forall_app. split; [exact Ht | ].
      constructor; [ | constructor].
      apply (chat_reply_is_never_empty_aux result).
    + exists now0, (rest ++ [m]). now rewrite Hm.
Qed.

(** Whatever the user types and sends and however the calls of the service
    settle, the conversation starts with the greeting of the model and
    then alternates between the user and the model; it ends with a message
    of the user exactly while a call is pending ([isLoading]), so a second
    message cannot be sent before the reply to the first; and no message
    in it has an empty text. *)
Theorem conversation_alternates {E : Type} (now : Z)
    (es : list (ChatInterface.Event E)) :
  let st := ChatInterface.run (ChatInterface.initial now) es in
  ChatInterface.alternates model (ChatInterface.messages st) = true
  /\ ChatInterface.nextRole model (ChatInterface.messages st)
     = (if ChatInterface.isLoading st then model else user)
  /\ Forall (fun m => JS.truthy (text m) = true) (ChatInterface.messages st)
  /\ exists rest,
       ChatInterface.messages st
       = {| role := model; text := ChatInterface.greeting;
            timestamp := now |} :: rest.
Proof.
  cbn zeta.
  assert (H : forall st,
             chatInv st ->
             chatInv (ChatInterface.run (E := E) st es)
             /\ hd_error (ChatInterface.messages (ChatInterface.run st es))
                = hd_error (ChatInterface.messages st)).
  { induction es as [ | e es IH]; intros st Hst; [now split | ].
    cbn [ChatInterface.run fold_left].
    destruct (IH (ChatInterface.step st e) (chat_step_Inv st e Hst))
      as [I1 I2].
    split; [exact I1 | ]. unfold ChatInterface.run in I2. rewrite I2.
    destruct Hst as (_ & _ & _ & n0 & rest & Hm).
    destruct e as [v | t | t result]; cbn [ChatInterface.step];
      try reflexivity.
    - unfold ChatInterface.handleSend.
      destruct (negb _ || _); cbn [fst ChatInterface.messages];
        [reflexivity | now rewrite Hm].
    - destruct (ChatInterface.isLoading st); [ | reflexivity].
      unfold ChatInterface.resume. cbn [ChatInterface.messages].
      now rewrite Hm. }
  destruct (H (ChatInterface.initial now)) as [(Ha & Hn & Ht & Hg) Hh].
  { repeat split; [repeat constructor | ]. now exists now, []. }
  repeat split; try assumption.
  destruct Hg as (n' & rest & Hm). rewrite Hm in Hh. cbn in Hh.
  injection Hh as ->. now exists rest.
Qed.

(** [handleSend] makes no call exactly when the input is blank or a call
    is pending, and then changes nothing.  Otherwise it appends the input
    as it was typed, not trimmed, as a message of the user, empties the
    input, turns [isLoading] on, and calls the service with the
    conversation as it was before, the new message apart. *)
Theorem send_is_guarded (now : Z) (st : ChatInterface.State) :
  let blank := forallb JS.isWhiteSpace (ChatInterface.input st) in
  let st' := fst (ChatInterface.handleSend now st) in
  (blank = true \/ ChatInterface.isLoading st = true ->
   ChatInterface.handleSend now st = (st, None))
  /\ (blank = false -> ChatInterface.isLoading st = false ->
      snd (ChatInterface.handleSend now st)
      = Some {| ChatInterface.history := ChatInterface.messages st;
                ChatInterface.newMessage := ChatInterface.input st |}
      /\ ChatInterface.messages st'
         = ChatInterface.messages st
           ++ [ {| role := user; text := ChatInterface.input st;
                   timestamp := now |} ]
      /\ ChatInterface.input st' = []
      /\ ChatInterface.isLoading st' = true).
Proof.
  cbn zeta. unfold ChatInterface.handleSend.
  pose proof (trim_blank (ChatInterface.input st)) as Hb.
  destruct (JS.truthy (JS.trim (ChatInterface.input st))); cbn [negb orb].
  - assert (Hf : forallb JS.isWhiteSpace (ChatInterface.input st) = false).
    { apply not_true_is_false. intros H. apply Hb in H. discriminate H. }
    split.
    + intros [H | H]; [congruence | now rewrite H].
    + intros _ ->. repeat split.
  - rewrite (proj1 Hb eq_refl). split; [reflexivity | discriminate].
Qed.

Lemma send_is_guarded_witness :
  ChatInterface.handleSend 7
    {| ChatInterface.messages := [];
       ChatInterface.input := JS.lit "  ";
       ChatInterface.isLoading := false |}
  = ({| ChatInterface.messages := [];
        ChatInterface.input := JS.lit "  ";
        ChatInterface.isLoading := false |}, None).
Proof.
  apply (send_is_guarded 7
           {| ChatInterface.messages := [];
              ChatInterface.input := JS.lit "  ";
              ChatInterface.isLoading := false |}).
  left. reflexivity.
Defined.

(** ** Waiting *)

(** While the ball is not in flight the render loop is idle: a second
    iteration with the same wind and window leaves the component exactly
    as the first one left it. *)
Theorem waiting_iterations_change_nothing (wind : Wind) (iw ih : Z)
    (c : Component) :
  gameState c <> THROWN ->
  frame wind iw ih (frame wind iw ih c) = frame wind iw ih c.
Proof.
  intros Hn.
  pose proof (proj1 (step_canvas {| component := c; mounted := true |}
                       (Frame wind iw ih)) wind iw ih) as [_ Hc].
  cbn [component] in Hc.
  destruct (frame_phase wind iw ih c Hn) as (Hg & _).
  set (c1 := frame wind iw ih c) in *.
  unfold frame at 1. unfold render. cbn [fst].
  assert (Hr : resize (gameState c1) iw ih c1 = c1).
  { unfold resize. rewrite Hc. cbn [width height].
    now rewrite !Z.eqb_refl. }
  rewrite Hr, Hg. unfold c1, frame, render. cbn [fst].
  destruct (gameState c); try contradiction; reflexivity.
Qed.

Lemma waiting_iterations_change_nothing_witness :
  frame calm 800 600 (frame calm 800 600 (component overthrow))
  = frame calm 800 600 (component overthrow).
Proof.
  apply (waiting_iterations_change_nothing calm 800 600
           (component overthrow)).
  vm_compute. discriminate.
Defined.
